(** * Map-reduce estimate of pi over an object store

    A shallow embedding of the Python cells of the two notebooks
    [mapreduce-pipeline/Compute-Pi-with-lightweight-components-and-minio.ipynb]
    and [mapreduce-pipeline/Compute-Pi-with-reusable-components-and-minio.ipynb]:
    seed generation, sampling, the storage keys built by the pipeline
    functions, the result search patterns, result collection and averaging;
    and, further down, of the pipeline functions of the notebook with
    components from docker images and of
    [ai-pipeline/03-DataBricksComputePi.ipynb], as graphs of tasks, and of
    the cells of the notebook on bucket storage.

    Python [int] is [Z], Python [float] is a binary64 primitive float,
    Python [str] is [string].  A Python function returns an [outcome], a
    value or the exception it raises; code that touches the local disk or
    the bucket threads a [world] through.  Library calls whose result the
    cells only pass on ([random], [pow], [str] and [float] on floats,
    [json.loads]) are parameters of the functions that call them.  The
    components run in the image [python:3.7.6-buster]; the arithmetic of
    [sum] and [/] is that of this interpreter.  The [print] statements,
    which only write to the log, are left out. *)

From Stdlib Require Import Floats Ascii.
From stdpp Require Import base strings list list_numbers pretty gmap.

Open Scope Z_scope.

(** ** Outcomes of Python calls *)

(** A Python exception, identified by the name of its class. *)
Definition exn : Type := string.

Definition ZeroDivisionError : exn := "ZeroDivisionError".
Definition ValueError : exn := "ValueError".
Definition NoSuchKey : exn := "NoSuchKey".
Definition TypeError : exn := "TypeError".
Definition OverflowError : exn := "OverflowError".

(** Error kinds of the design's taxonomy.  No cell of the notebooks defines
    or raises an exception of these names. *)
Definition InvalidArgument : exn := "InvalidArgument".
Definition EmptyInput : exn := "EmptyInput".
Definition AggregationFailure : exn := "AggregationFailure".

Inductive outcome (A : Type) : Type :=
| Ok (v : A)
| Raise (e : exn).
Arguments Ok {A} v.
Arguments Raise {A} e.

(** The rest of a computation runs on the value of its first part; an
    exception ends it. *)
Definition and_then {A B} (o : outcome A) (k : A → outcome B) : outcome B :=
  match o with
  | Ok v => k v
  | Raise e => Raise e
  end.

Definition is_Ok {A} (o : outcome A) : Prop := ∃ v, o = Ok v.
Definition is_Raise {A} (o : outcome A) : Prop := ∃ e, o = Raise e.

(** ** Python built-ins used by the cells *)

Module Py.

(** [range(n)]: the integers [0 .. n-1]; empty when [n <= 0]. *)
Definition range (n : Z) : list Z := seqZ 0 n.

(** [enumerate(l)] *)
Definition enumerate {A} (l : list A) : list (nat * A) :=
  zip (seq 0 (length l)) l.

(** [str(i)] for an [int]. *)
Definition str_int (i : Z) : string := pretty i.

(** [s.rstrip('/')] works from the right end of [s]; on the reversed
    character list that is dropping the leading slashes. *)
Fixpoint drop_slashes (l : list Ascii.ascii) : list Ascii.ascii :=
  match l with
  | c :: l' => if Ascii.eqb c "/"%char then drop_slashes l' else l
  | [] => []
  end.

Definition rstrip_slash (s : string) : string :=
  String.string_of_list_ascii
    (rev (drop_slashes (rev (String.list_ascii_of_string s)))).

End Py.

(** ** create_seeds *)

(** [create_seeds_func], the same in both notebooks:
<<
    constant = 10  # just so I know something is happening
    return [constant + i for i in range(n_samples)]
>> *)
Definition create_seeds_func (n_samples : Z) : outcome (list Z) :=
  let constant := 10 in
  Ok ((λ i, constant + i) <$> Py.range n_samples).

(** The seeds as a plain list: the value returned, or nothing on a raise. *)
Definition seeds_of (o : outcome (list Z)) : list Z :=
  match o with Ok l => l | Raise _ => [] end.

(** ** Regular expressions

    The fragment of the [re] syntax that the two search patterns use:
    literal characters, [.], [^], postfix [*], [|] and grouping.  A pattern
    is parsed from its text and run by a backtracking matcher over the
    positions of the subject string. *)

Module Regex.

Inductive t : Type :=
| Eps                  (* the empty pattern *)
| Chr (c : ascii)      (* a literal character *)
| Dot                  (* [.]: any character except a newline *)
| Bol                  (* [^]: the start of the subject *)
| Seq (r1 r2 : t)
| Alt (r1 r2 : t)
| Star (r : t).

Definition newline : ascii := "010"%char.

(** *** Parsing *)

(** Characters with a meaning this fragment does not cover. *)
Definition unsupported (c : ascii) : bool :=
  bool_decide (c ∈ ["\"; "["; "]"; "{"; "}"; "+"; "?"; "$"; "*"; ")"; "|"]%char).

Fixpoint parse_alt (fuel : nat) (l : list ascii) {struct fuel}
  : option (t * list ascii) :=
  match fuel with
  | O => None
  | S fuel =>
      match parse_seq fuel l with
      | Some (r1, ("|"%char :: rest)) =>
          match parse_alt fuel rest with
          | Some (r2, rest') => Some (Alt r1 r2, rest')
          | None => None
          end
      | other => other
      end
  end
with parse_seq (fuel : nat) (l : list ascii) {struct fuel}
  : option (t * list ascii) :=
  match fuel with
  | O => None
  | S fuel =>
      match l with
      | [] => Some (Eps, l)
      | (")" :: _)%char => Some (Eps, l)
      | ("|" :: _)%char => Some (Eps, l)
      | _ =>
          match parse_atom fuel l with
          | Some (a, rest) =>
              let '(a', rest') :=
                match rest with
                | ("*" :: rest')%char => (Star a, rest')
                | _ => (a, rest)
                end in
              match parse_seq fuel rest' with
              | Some (r2, rest'') => Some (Seq a' r2, rest'')
              | None => None
              end
          | None => None
          end
      end
  end
with parse_atom (fuel : nat) (l : list ascii) {struct fuel}
  : option (t * list ascii) :=
  match fuel with
  | O => None
  | S fuel =>
      match l with
      | [] => None
      | ("(" :: rest)%char =>
          match parse_alt fuel rest with
          | Some (r, (")" :: rest')%char) => Some (r, rest')
          | _ => None
          end
      | ("." :: rest)%char => Some (Dot, rest)
      | ("^" :: rest)%char => Some (Bol, rest)
      | c :: rest => if unsupported c then None else Some (Chr c, rest)
      end
  end.

(** [re.compile(pattern)]; [None] stands for a pattern outside the
    fragment. *)
Definition compile (pattern : string) : option t :=
  let l := String.list_ascii_of_string pattern in
  match parse_alt (3 * S (length l)) l with
  | Some (r, []) => Some r
  | _ => None
  end.

(** *** Matching *)

Section matcher.

Variable s : list ascii.   (* the subject *)

(** Zero or more rounds of [step], each round moving forward. *)
Fixpoint star_from (step : nat → list nat) (fuel : nat) (i : nat) : list nat :=
  i :: match fuel with
       | O => []
       | S fuel =>
           filter (λ j, i < j)%nat (step i) ≫= star_from step fuel
       end.

(** [ends r i]: every position at which a match of [r] that starts at
    position [i] can end. *)
Fixpoint ends (r : t) (i : nat) : list nat :=
  match r with
  | Eps => [i]
  | Chr c =>
      match s !! i with
      | Some c' => if Ascii.eqb c c' then [S i] else []
      | None => []
      end
  | Dot =>
      match s !! i with
      | Some c' => if Ascii.eqb c' newline then [] else [S i]
      | None => []
      end
  | Bol => if (i =? 0)%nat then [i] else []
  | Seq r1 r2 => ends r1 i ≫= ends r2
  | Alt r1 r2 => ends r1 i ++ ends r2 i
  | Star r' => star_from (ends r') (length s - i) i
  end.

(** [re.search]: a match may start at any position. *)
Definition search (r : t) : bool :=
  existsb (λ i, bool_decide (ends r i ≠ [])) (seq 0 (S (length s))).

(** What it means for [r] to match [s] from position [i] up to
    position [j]. *)
Inductive spans : t → nat → nat → Prop :=
| spans_Eps i : spans Eps i i
| spans_Chr c i : s !! i = Some c → spans (Chr c) i (S i)
| spans_Dot c i : s !! i = Some c → c ≠ newline → spans Dot i (S i)
| spans_Bol : spans Bol 0 0
| spans_Seq r1 r2 i j k :
    spans r1 i j → spans r2 j k → spans (Seq r1 r2) i k
| spans_Alt_l r1 r2 i j : spans r1 i j → spans (Alt r1 r2) i j
| spans_Alt_r r1 r2 i j : spans r2 i j → spans (Alt r1 r2) i j
| spans_Star_stop r i : spans (Star r) i i
| spans_Star_more r i j k :
    spans r i j → spans (Star r) j k → spans (Star r) i k.

End matcher.

(** *** Words

    A pattern that is a row of literal characters and dots, as the parser
    builds it. *)

Definition atom (a : option ascii) : t :=
  match a with
  | Some c => Chr c
  | None => Dot
  end.

Definition word (w : list (option ascii)) : t :=
  foldr (λ a r, Seq (atom a) r) Eps w.

(** The character [c] is allowed where the word has [a]. *)
Definition fits (a : option ascii) (c : ascii) : Prop :=
  match a with
  | Some c' => c = c'
  | None => c ≠ newline
  end.

(** The shape the parser gives to [.*(^|/)] followed by a word. *)
Definition anywhere_in_segment (w : list (option ascii)) : t :=
  Seq (Star Dot)
      (Seq (Alt (Seq Bol Eps) (Seq (Chr "/") Eps)) (word w)).

(** [result.out] as a word: the dot stands for any character. *)
Definition result_out : list (option ascii) :=
  [Some "r"; Some "e"; Some "s"; Some "u"; Some "l"; Some "t"; None;
   Some "o"; Some "u"; Some "t"]%char.

End Regex.

(** ** The world of a component run

    [files] is the working directory of the container, [bucket] the objects
    of the minio bucket, and [puts] the calls made to the helper
    [copy_to_minio], latest first, each with its destination and the
    content of the file it was given. *)

Record world : Type := World {
  files : gmap string string;
  bucket : gmap string string;
  puts : list (string * string)
}.

Definition FileNotFoundError : exn := "FileNotFoundError".

(** A computation that may change the world and may raise. *)
Definition M (A : Type) : Type := world → outcome A * world.

Definition ret {A} (v : A) : M A := λ w, (Ok v, w).

Definition raise {A} (e : exn) : M A := λ w, (Raise e, w).

Definition bind {A B} (m : M A) (k : A → M B) : M B :=
  λ w, match m w with
       | (Ok v, w') => k v w'
       | (Raise e, w') => (Raise e, w')
       end.

Definition lift {A} (o : outcome A) : M A := λ w, (o, w).

Declare Scope M_scope.
Delimit Scope M_scope with M.
Notation "x ←' m ; k" := (bind m (λ x, k))
  (at level 20, m at level 100, k at level 200, right associativity,
   format "'[v' x  ←'  m ; '/' k ']'") : M_scope.
Notation "m ;' k" := (bind m (λ _, k))
  (at level 100, k at level 200, right associativity,
   format "'[v' m ;' '/' k ']'") : M_scope.

(** [for item in items: body], with the variables the body assigns to
    carried in [acc]. *)
Fixpoint for_in {A S} (items : list A) (acc : S) (body : A → S → M S) : M S :=
  match items with
  | [] => ret acc
  | item :: items' => bind (body item acc) (λ acc', for_in items' acc' body)
  end.

Module Io.

(** [with open(path, 'w') as fout: fout.write(text)] *)
Definition write_file (path text : string) : M unit :=
  λ w, (Ok (), World (<[path := text]> (files w)) (bucket w) (puts w)).

(** [with open(path, 'r') as fin: fin.read()] *)
Definition read_file (path : string) : M string :=
  λ w, match files w !! path with
       | Some text => (Ok text, w)
       | None => (Raise FileNotFoundError, w)
       end.

(** [s3.fget_object(bucket, object_name, file_path)] of the minio client:
    downloads the object into a local file, and raises when the bucket
    has no such object. *)
Definition fget_object (object_name file_path : string) : M unit :=
  λ w, match bucket w !! object_name with
       | Some content =>
           (Ok (), World (<[file_path := content]> (files w)) (bucket w) (puts w))
       | None => (Raise NoSuchKey, w)
       end.

(** Modelled from the spec: [copy_to_minio(..., bucket, sourcefile,
    destination)] is a helper of [utilities.py], which is not among the
    sources.  Following the object store client of the design,
    [put(bucket, key, bytes)] with the last write winning, it stores the
    content of the local file in the bucket under the destination.  The
    call itself, with its destination and the content handed over, is
    recorded in [puts]. *)
Definition copy_to_minio (sourcefile destination : string) : M unit :=
  λ w, match files w !! sourcefile with
       | Some content =>
           (Ok (), World (files w) (<[destination := content]> (bucket w))
                     ((destination, content) :: puts w))
       | None => (Raise FileNotFoundError, w)
       end.

End Io.

(** ** Python values and numbers as the cells use them *)

Module Num.

(** A Python number, an [int] or a [float]: a value stored in the
    [to_output] dictionary, and the running total of [sum]. *)
Inductive pyval : Type :=
| PyFloat (f : float)
| PyInt (i : Z).

(** What [json.loads] returns: [None], a [bool], an [int], a [float], a
    [str], a [list], or a [dict] with its items in order. *)
#[local] Set Warnings "-register-all".
Inductive json : Type :=
| JNull
| JBool (b : bool)
| JInt (i : Z)
| JFloat (f : float)
| JStr (s : string)
| JList (items : list json)
| JDict (items : list (string * json)).

(** The least integer that no longer rounds to a finite float: half an
    [ulp] below [2 ** 1024]. *)
Definition float_limit : Z := Eval cbv in 2 ^ 1024 - 2 ^ 970.

(** The conversion of an [int] that meets a [float] in [+] or [/]: the
    nearest float, ties to even; an [int] too large for that raises. *)
Definition float_of_int (i : Z) : outcome float :=
  if Z.abs i <? float_limit
  then Ok (SF2Prim (binary_normalize prec emax i 0 false))
  else Raise OverflowError.

(** [total + item], as [sum] adds the next item to its running total:
    exact on two [int]s (a [bool] counts as 0 or 1), in floating point as
    soon as a [float] is involved, and a [TypeError] for anything that is
    not a number. *)
Definition add (total : pyval) (item : json) : outcome pyval :=
  match total, item with
  | PyInt a, JInt b => Ok (PyInt (a + b))
  | PyInt a, JBool b => Ok (PyInt (a + Z.b2z b))
  | PyInt a, JFloat g =>
      and_then (float_of_int a) (λ f, Ok (PyFloat (f + g)))
  | PyFloat f, JFloat g => Ok (PyFloat (f + g))
  | PyFloat f, JInt b =>
      and_then (float_of_int b) (λ g, Ok (PyFloat (f + g)))
  | PyFloat f, JBool b =>
      and_then (float_of_int (Z.b2z b)) (λ g, Ok (PyFloat (f + g)))
  | _, _ => Raise TypeError
  end.

Fixpoint sum_from (total : pyval) (items : list json) : outcome pyval :=
  match items with
  | [] => Ok total
  | item :: items' => and_then (add total item) (λ total', sum_from total' items')
  end.

(** What a [for] loop over the value goes through: the items of a list,
    the keys of a dictionary, the characters of a text; anything else is
    not iterable.  Of a text, [average_func] only gets to see whether it
    is empty: the first character already stops the sum. *)
Definition iterate (v : json) : outcome (list json) :=
  match v with
  | JList items => Ok items
  | JDict items => Ok ((λ kv, JStr kv.1) <$> items)
  | JStr s => Ok ((λ c, JStr (String c "")) <$> String.list_ascii_of_string s)
  | _ => Raise TypeError
  end.

(** [sum(numbers)]: the running total, from the left, starting at the
    [int] zero. *)
Definition sum (numbers : json) : outcome pyval :=
  and_then (iterate numbers) (sum_from (PyInt 0)).

(** [len(numbers)] *)
Definition len (numbers : json) : outcome Z :=
  and_then (iterate numbers) (λ items, Ok (Z.of_nat (length items))).

(** An [int] as the operand of an exact division. *)
Definition operand (i : Z) : spec_float :=
  match i with
  | Z0 => S754_zero false
  | Zpos m => S754_finite false m 0
  | Zneg m => S754_finite true m 0
  end.

(** [total / n] for an [int] [n]: true division.  It raises on a zero
    divisor.  Two [int]s give the float nearest to their exact quotient,
    or raise when that is too large; a [float] is divided by the float of
    the [int]. *)
Definition truediv (total : pyval) (n : Z) : outcome float :=
  if n =? 0 then Raise ZeroDivisionError
  else
    match total with
    | PyInt a =>
        match SFdiv prec emax (operand a) (operand n) with
        | S754_infinity _ => Raise OverflowError
        | q => Ok (SF2Prim q)
        end
    | PyFloat f => and_then (float_of_int n) (λ d, Ok (f / d)%float)
    end.

End Num.

(** ** average *)

Section average.

(** [json.loads]: the decoded value, or the exception it raises. *)
Variable json_loads : string → outcome Num.json.

(** [average_func], the same in both notebooks:
<<
  numbers = json.loads(numbers)
  return sum(numbers) / len(numbers)
>> *)
Definition average_func (numbers : string) : outcome float :=
  and_then (json_loads numbers) (λ numbers,
  and_then (Num.sum numbers) (λ total,
  and_then (Num.len numbers) (λ n,
  Num.truediv total n))).

End average.

(** The arithmetic mean in the words of the design, the sum of the values
    divided by their count, read in the binary64 arithmetic of IEEE 754 as
    [SpecFloat] defines it: each sum and the quotient are the nearest
    float, and the count is the number of values. *)
Definition ieee_total (values : list float) : spec_float :=
  fold_left (λ total v, SFadd prec emax total (Prim2SF v)) values
    (S754_zero false).

Definition ieee_count (values : list float) : spec_float :=
  binary_normalize prec emax (Z.of_nat (length values)) 0 false.

Definition arithmetic_mean (values : list float) : spec_float :=
  SFdiv prec emax (ieee_total values) (ieee_count values).

(** ** The storage layout of the design *)

Module Layout.

(** [<prefix>/<run-id>/seeds/<task-id>/result.out] *)
Definition seed_key (pfx run_id : string) (task_id : Z) : string :=
  pfx +:+ "/" +:+ run_id +:+ "/seeds/" +:+ pretty task_id +:+ "/result.out".

(** [<prefix>/<run-id>/result.out] *)
Definition final_key (pfx run_id : string) : string :=
  pfx +:+ "/" +:+ run_id +:+ "/result.out".

End Layout.

(** ** The notebook with reusable components *)

Module Reusable.

(** The named tuple returned by [sample_func]. *)
Record Outputs : Type := {
  x : float;
  y : float;
  result : Z;
  seed : Z
}.

Section sample.

(** The [random] module: its generator state, [random.seed] and
    [random.random]; and the C library's [pow], which [x ** 2] calls. *)
Context {rng : Type}.
Variable random_seed : Z → rng.
Variable random_random : rng → float * rng.
Variable pow : float → float → float.

(**
<<
random.seed(seed)
x = random.random() * 2 - 1
y = random.random() * 2 - 1
if (x ** 2 + y ** 2) <= 1:
    result = 4
else:
    result = 0
output = output_spec(x, y, result, seed)
return output
>> *)
Definition sample_func (seed_ : Z) : outcome Outputs :=
  let g := random_seed seed_ in
  let '(u, g) := random_random g in
  let x_ := (u * 2 - 1)%float in
  let '(u, g) := random_random g in
  let y_ := (u * 2 - 1)%float in
  let result_ := if (pow x_ 2 + pow y_ 2 <=? 1)%float then 4 else 0 in
  Ok {| x := x_; y := y_; result := result_; seed := seed_ |}.

End sample.

Section compute_pi.

(** The texts that [compute_pi] builds.  [output_location] is the text
    that [str(output_location)] gives and [run_id] the text that stands
    for [kfp.dsl.RUN_ID_PLACEHOLDER].  When kfp compiles the pipeline,
    [output_location] is a pipeline parameter and this text is the
    placeholder that stands for the argument of the run. *)
Variable output_location : string.
Variable run_id : string.

(** [f"{str(output_location).rstrip('/')}" f"/{kfp.dsl.RUN_ID_PLACEHOLDER}"] *)
Definition this_run_output_location : string :=
  Py.rstrip_slash output_location +:+ "/" +:+ run_id.

(** [f"{this_run_output_location}/seeds"] *)
Definition sample_output_location : string :=
  this_run_output_location +:+ "/seeds".

(** The destination of [copy_sample], inside the loop over the seeds:
    [f"{sample_output_location}{seed}/result.out"] *)
Definition copy_sample_destination (seed_ : Z) : string :=
  sample_output_location +:+ Py.str_int seed_ +:+ "/result.out".

(** [search_pattern = r'/result.out'] *)
Definition search_pattern : string := "/result.out".

(** The destination of [copy_average]:
    [f"{this_run_output_location}/result.out"] *)
Definition copy_average_destination : string :=
  this_run_output_location +:+ "/result.out".

End compute_pi.

End Reusable.

(** ** The notebook with lightweight components *)

Module Lightweight.

Import Num.
Local Open Scope M_scope.

Section sample.

Context {rng : Type}.
Variable random_seed : Z → rng.
Variable random_random : rng → float * rng.
Variable pow : float → float → float.
(** [str(value)] for a [float]. *)
Variable str_float : float → string.

Definition str (value : pyval) : string :=
  match value with
  | PyFloat f => str_float f
  | PyInt i => Py.str_int i
  end.

(** The dictionary [to_output], in insertion order. *)
Definition to_output (seed : Z) : list (string * pyval) :=
  let g := random_seed seed in
  let '(u, g) := random_random g in
  let x := (u * 2 - 1)%float in
  let '(u, g) := random_random g in
  let y := (u * 2 - 1)%float in
  let result := if (pow x 2 + pow y 2 <=? 1)%float then 4 else 0 in
  [("x", PyFloat x); ("y", PyFloat y); ("result", PyInt result);
   ("seed", PyInt seed)].

(** [f"{minio_output_path.rstrip('/')}/seed_{seed}/{tempfile}"] *)
Definition destination (minio_output_path : string) (seed : Z)
    (tempfile : string) : string :=
  Py.rstrip_slash minio_output_path +:+ "/seed_" +:+ Py.str_int seed
    +:+ "/" +:+ tempfile.

(** The body of the loop, for one entry of the dictionary:
<<
    tempfile = f"{varname}.out"
    with open(tempfile, 'w') as fout:
        fout.write(str(value))
    destination = f"{minio_output_path.rstrip('/')}/seed_{seed}/{tempfile}"
    copy_to_minio(..., sourcefile=tempfile, destination=destination)
>>
    The connection arguments only select the store and are left out. *)
Definition put_entry (minio_output_path : string) (seed : Z)
    (entry : string * pyval) (_ : unit) : M unit :=
  let '(varname, value) := entry in
  let tempfile := varname +:+ ".out" in
  Io.write_file tempfile (str value);'
  Io.copy_to_minio tempfile (destination minio_output_path seed tempfile).

(**
<<
for varname, value in to_output.items():
    ...
return minio_output_path
>> *)
Definition sample_func (seed : Z) (minio_output_path : string) : M string :=
  for_in (to_output seed) () (put_entry minio_output_path seed);'
  ret minio_output_path.

End sample.

Section compute_pi.

(** The texts that [compute_pi] builds.  [output_location] is the text
    that [str(output_location)] gives and [run_id] the text that stands
    for [kfp.dsl.RUN_ID_PLACEHOLDER].  When kfp compiles the pipeline,
    [output_location] is a pipeline parameter and this text is the
    placeholder that stands for the argument of the run.  The loop over
    the seeds calls [sample_func] with [sample_output_location] as its
    output path, and the collection searches [sample_output_location]
    for [search_pattern]. *)
Variable output_location : string.
Variable run_id : string.

(** [f"{str(output_location).rstrip('/')}" f"/{kfp.dsl.RUN_ID_PLACEHOLDER}"] *)
Definition this_run_output_location : string :=
  Py.rstrip_slash output_location +:+ "/" +:+ run_id.

(** [f"{this_run_output_location}/seeds"] *)
Definition sample_output_location : string :=
  this_run_output_location +:+ "/seeds".

(** [search_pattern = r'.*(^|/)result.out'] *)
Definition search_pattern : string := ".*(^|/)result.out".

End compute_pi.

Section collect.

(** [minio_find_files_matching_pattern] of [utilities.py], which is not
    among the sources: from the bucket, the pattern and the prefix to
    the names it lists. *)
Variable minio_find_files_matching_pattern :
  gmap string string → string → string → outcome (list string).
(** [float(text)]; [None] where Python raises [ValueError]. *)
Variable float_of_text : string → option float.

Definition py_float (text : string) : M float :=
  match float_of_text text with
  | Some v => ret v
  | None => raise ValueError
  end.

(** The body of the loop, for the index [i] and the name [obj_name]:
<<
    tempfile = f"./unique_temp_{i}"
    s3.fget_object(minio_bucket, object_name=obj_name, file_path=tempfile)
    with open(tempfile, 'r') as fin:
        to_return[i] = float(fin.read())
>> *)
Definition fetch_into (item : nat * string) (to_return : list (option float))
  : M (list (option float)) :=
  let '(i, obj_name) := item in
  let tempfile := "./unique_temp_" +:+ pretty i in
  Io.fget_object obj_name tempfile;'
  text ←' Io.read_file tempfile;
  v ←' py_float text;
  ret (<[i := Some v]> to_return).

(**
<<
obj_names = minio_find_files_matching_pattern(..., pattern=search_pattern,
                                              prefix=search_location)
to_return = [None] * len(obj_names)
for i, obj_name in enumerate(obj_names):
    ...
return to_return
>>
    A slot of [to_return] holds [None] until the loop assigns it. *)
Definition collect_results_as_list (search_location search_pattern : string)
  : M (list (option float)) :=
  obj_names ←' (λ w, lift (minio_find_files_matching_pattern
                           (bucket w) search_pattern search_location) w);
  let to_return := replicate (length obj_names) None in
  to_return ←' for_in (Py.enumerate obj_names) to_return fetch_into;
  ret to_return.

End collect.

End Lightweight.

(** ** The per-key test of the result finder *)

(** Modelled from the spec: the test that [minio_find_files_matching_pattern]
    ([utilities.py], not among the sources) and the [mc find --regex] call
    of the reusable component apply to a key is missing; following the
    design, the pattern is read as a regular expression that may match
    anywhere in the key.  A pattern outside the fragment matches nothing. *)
Definition key_matches (pattern key : string) : bool :=
  match Regex.compile pattern with
  | Some r => Regex.search (String.list_ascii_of_string key) r
  | None => false
  end.

(** ** Notions used in the statements *)

(** The text [result], one character other than a newline, and [out]: what
    the pattern text [result.out] matches. *)
Definition result_any_out (text : string) : Prop :=
  ∃ c, text = "result" +:+ String c "out" ∧ c ≠ Regex.newline.

(** [text] is at the start of a path segment of [key]: at the start of the
    key, or right after a slash. *)
Definition starts_segment (key text : string) : Prop :=
  (∃ post, key = text +:+ post) ∨
  (∃ pre post, key = pre +:+ "/" +:+ text +:+ post).

(** [text] follows a slash somewhere in [key]. *)
Definition follows_slash (key text : string) : Prop :=
  ∃ pre post, key = pre +:+ "/" +:+ text +:+ post.

(** The object [name] of bucket [b] holds a text that [float] reads as [v]. *)
Definition holds_float (float_of_text : string → option float)
    (b : gmap string string) (name : string) (v : float) : Prop :=
  ∃ text, b !! name = Some text ∧ float_of_text text = Some v.

(** Fetching and parsing one object, as a value: the float, or the
    exception of the step that fails. *)
Definition fetch_parse (float_of_text : string → option float)
    (b : gmap string string) (name : string) : outcome float :=
  match b !! name with
  | None => Raise NoSuchKey
  | Some text =>
      match float_of_text text with
      | Some v => Ok v
      | None => Raise ValueError
      end
  end.

(** Fetching and parsing the names one after the other, stopping at the
    first that fails. *)
Fixpoint gather_all (float_of_text : string → option float)
    (b : gmap string string) (names : list string) : outcome (list float) :=
  match names with
  | [] => Ok []
  | name :: names' =>
      match fetch_parse float_of_text b name with
      | Raise e => Raise e
      | Ok v =>
          match gather_all float_of_text b names' with
          | Raise e => Raise e
          | Ok vs => Ok (v :: vs)
          end
      end
  end.

(** [<prefix>/<run-id>/seeds/seed_<task-id>/result.out], the key under which
    the lightweight [sample_func] puts a result. *)
Definition seed_result_key (pfx run_id : string) (task_id : Z) : string :=
  pfx +:+ "/" +:+ run_id +:+ "/seeds/seed_" +:+ pretty task_id +:+ "/result.out".

(** The value of [result] for the point [(x, y)]. *)
Definition hit (pow : float → float → float) (x y : float) : Z :=
  if (pow x 2 + pow y 2 <=? 1)%float then 4 else 0.

(** The [result] that [sample_func] computes for a seed, from the two
    numbers it draws; and the float that a reader of its text gets. *)
Definition result_of {rng : Type} (random_seed : Z → rng)
    (random_random : rng → float * rng) (pow : float → float → float)
    (seed : Z) : Z :=
  hit pow
    ((random_random (random_seed seed)).1 * 2 - 1)%float
    ((random_random (random_random (random_seed seed)).2).1 * 2 - 1)%float.

Definition float_of_result (r : Z) : float := if r =? 4 then 4%float else 0%float.

(** What one entry of [to_output] becomes in the list of puts. *)
Definition put_of (str_float : float → string) (minio_output_path : string)
    (seed : Z) (entry : string * Num.pyval) : string * string :=
  (Lightweight.destination minio_output_path seed (entry.1 +:+ ".out"),
   Lightweight.str str_float entry.2).

(** A text parser for the examples: it reads the texts that [sample_func]
    writes for a result, as [float] does, and nothing else. *)
Definition float_of_result_text (text : string) : option float :=
  if String.eqb text "4" then Some 4%float
  else if String.eqb text "0" then Some 0%float
  else None.

(** A decoder for the examples: it reads the texts used below, as
    [json.loads] does, and no other text. *)
Definition json_loads_example (text : string) : outcome Num.json :=
  if String.eqb text "[]" then Ok (Num.JList [])
  else if String.eqb text "[4.0, 0.0, 4.0, 0.0]"
  then Ok (Num.JList (Num.JFloat <$> [4; 0; 4; 0]%float))
  else if String.eqb text "[4.0, 0.0]"
  then Ok (Num.JList (Num.JFloat <$> [4; 0]%float))
  else if String.eqb text "[0.0, 0.0, 4.0]"
  then Ok (Num.JList (Num.JFloat <$> [0; 0; 4]%float))
  else if String.eqb text "[4, 0, 4, 1]"
  then Ok (Num.JList (Num.JInt <$> [4; 0; 4; 1]))
  else if String.eqb text "[4, null]"
  then Ok (Num.JList [Num.JInt 4; Num.JNull])
  else if String.eqb text "{}" then Ok (Num.JDict [])
  else Raise "JSONDecodeError".

(** A generator for the examples: a counter that starts at the seed and
    draws 0.25, 0.875 and 0 in turn; a [pow] that squares, whatever the
    exponent; and the texts of the three coordinates that come up. *)
Definition counter_seed (seed : Z) : nat := Z.to_nat seed.

Definition counter_random (g : nat) : float * nat :=
  (match (g mod 3)%nat with
   | 0%nat => 0.25%float
   | 1%nat => 0.875%float
   | _ => 0%float
   end, S g).

Definition square_pow (a _ : float) : float := (a * a)%float.

Definition str_float_example (f : float) : string :=
  if (f =? -0.5)%float then "-0.5"
  else if (f =? 0.75)%float then "0.75"
  else "-1.0".

(** A bucket and a finder for the examples: two results, and an object
    whose text is not a number. *)
Definition example_bucket : gmap string string :=
  list_to_map [("out/run/seeds/seed_10/result.out", "4");
               ("out/run/seeds/seed_11/result.out", "0");
               ("out/run/seeds/notes/result.out", "none yet")].

Definition example_world : world := World ∅ example_bucket [].

Definition find_two (_ : gmap string string) (_ _ : string)
  : outcome (list string) :=
  Ok ["out/run/seeds/seed_10/result.out"; "out/run/seeds/seed_11/result.out"].

Definition find_seeds (_ : gmap string string) (_ _ : string)
  : outcome (list string) :=
  Ok ["out/run/seeds/seed_10/result.out"; "out/run/seeds/seed_11/result.out";
      "out/run/seeds/seed_12/result.out"].

Definition find_three (_ : gmap string string) (_ _ : string)
  : outcome (list string) :=
  Ok ["out/run/seeds/seed_10/result.out"; "out/run/seeds/notes/result.out";
      "out/run/seeds/seed_11/result.out"].

(** ** Texts of paths *)

(** The characters of a text. *)
Definition chars (s : string) : list ascii := String.list_ascii_of_string s.

(** The characters of the text of an integer. *)
Definition digit_or_dash (c : ascii) : Prop :=
  c ∈ ["0"; "1"; "2"; "3"; "4"; "5"; "6"; "7"; "8"; "9"; "-"]%char.

(** [s] has no slash in it. *)
Definition slash_free (s : string) : Prop :=
  "/"%char ∉ String.list_ascii_of_string s.

(** The names of the entries of [to_output]. *)
Definition varnames : list string := ["x"; "y"; "result"; "seed"].

(** ** Stages of a run of the lightweight pipeline *)

Module LightweightRun.

Local Open Scope M_scope.

(** A component runs in a container of its own: its working directory is
    empty at the start and thrown away at the end; the bucket and the
    puts are those of the run. *)
Definition in_container {A} (m : M A) : M A :=
  λ w, let '(r, w') := m (World ∅ (bucket w) (puts w)) in
       (r, World (files w) (bucket w') (puts w')).

Section compute_pi.

Context {rng : Type}.
Variable random_seed : Z → rng.
Variable random_random : rng → float * rng.
Variable pow : float → float → float.
Variable str_float : float → string.
Variable minio_find_files_matching_pattern :
  gmap string string → string → string → outcome (list string).
Variable float_of_text : string → option float.
(** The text in which the pipeline hands the list returned by one
    component to the next. *)
Variable serialize : list (option float) → string.
Variable json_loads : string → outcome Num.json.

Variable output_location : string.
Variable run_id : string.

(** The loop of [compute_pi] over the seeds:
<<
with kfp.dsl.ParallelFor(seeds.output) as seed:
    sample_op_ = sample_op(seed, minio_url, minio_bucket, minio_access_key,
                           minio_secret_key, sample_output_location)
>>
    one sample task per seed.  The tasks run side by side, each putting
    its files under its own seed; here they are taken one after the
    other, in the order [order]. *)
Definition sample_ops (order : list Z) : M unit :=
  for_in order () (λ seed _,
    in_container
      (Lightweight.sample_func random_seed random_random pow str_float seed
         (Lightweight.sample_output_location output_location run_id));'
    ret ()).

(** The end of [compute_pi]:
<<
collect_results_op_ = collect_results_op(
    search_location=sample_output_location,
    search_pattern=search_pattern, ...)
average_op(collect_results_op_.output)
>> *)
Definition collect_and_average : M float :=
  results ←' in_container
    (Lightweight.collect_results_as_list
       minio_find_files_matching_pattern float_of_text
       (Lightweight.sample_output_location output_location run_id)
       Lightweight.search_pattern);
  lift (average_func json_loads (serialize results)).

(** The order in which the sample tasks of a run happen to be taken. *)
Variable schedule : list Z → list Z.

(** A run of [compute_pi]: the seeds, one sample task for each of them,
    and, after all of these, collection and averaging:
<<
seeds = create_seeds_op(n_samples)
with kfp.dsl.ParallelFor(seeds.output) as seed:
    ...
for s in sample_ops:
    collect_results_op_.after(s)
average_op(collect_results_op_.output)
>> *)
Definition run (n_samples : Z) : M float :=
  seeds ←' lift (create_seeds_func n_samples);
  sample_ops (schedule seeds);'
  collect_and_average.

End compute_pi.

End LightweightRun.

(** The bucket after the puts [ps], latest first. *)
Definition after_puts (ps : list (string * string)) (b : gmap string string)
  : gmap string string :=
  foldr (λ p b', <[p.1 := p.2]> b') b ps.

(** The four puts of one sample task, latest first. *)
Definition puts_of_sample {rng : Type} (random_seed : Z → rng)
    (random_random : rng → float * rng) (pow : float → float → float)
    (str_float : float → string) (path : string) (seed : Z)
  : list (string * string) :=
  rev (put_of str_float path seed
         <$> Lightweight.to_output random_seed random_random pow seed).

(** The hand-over for the examples: the text of a list of fours and zeros,
    as [json.dumps] writes it. *)
Definition item_text (item : option float) : string :=
  match item with
  | Some v => if (v =? 4)%float then "4.0" else if (v =? 0)%float then "0.0" else "NaN"
  | None => "null"
  end.

Fixpoint items_text (items : list (option float)) : string :=
  match items with
  | [] => ""
  | [item] => item_text item
  | item :: items' => item_text item +:+ ", " +:+ items_text items'
  end.

Definition serialize_example (l : list (option float)) : string :=
  "[" +:+ items_text l +:+ "]".

(** A path segment of the text [s] starts with [result], one character and
    [out]: at the start of [s] or right after a slash. *)
Definition segment_hit (s : list ascii) : Prop :=
  (∃ cs post, Forall2 Regex.fits Regex.result_out cs ∧ s = cs ++ post) ∨
  (∃ pre cs post,
     Forall2 Regex.fits Regex.result_out cs ∧ s = pre ++ "/"%char :: cs ++ post).

(** ** Pipelines as graphs of tasks

    A pipeline function creates tasks and ties them together: a task that
    is given the output of another task waits for it, and so does a task
    that is told to run [after] another one. *)

Module Kfp.

(** What a task is given: a constant, a pipeline parameter, the output of
    an earlier task, or a list or a dictionary of these. *)
#[local] Set Warnings "-register-all".
Inductive value : Type :=
| Str (s : string)
| Int (i : Z)
| Param (name : string)
| Output (task : nat) (name : string)
| Items (vs : list value)
| Dict (kvs : list (string * value)).

(** A task: the class of the op, its keyword arguments, and the tasks it
    was told to run after. *)
Record op : Type := Op {
  kind : string;
  spec : list (string * value);
  after : list nat
}.

(** A pipeline under construction: the tasks created so far, in order of
    creation; a task is known by its place in this list.  A call that
    raises leaves the tasks created before the raise. *)
Definition B (A : Type) : Type := list op → outcome A * list op.

Definition bret {A} (v : A) : B A := λ p, (Ok v, p).

Definition braise {A} (e : exn) : B A := λ p, (Raise e, p).

Definition bbind {A C} (m : B A) (k : A → B C) : B C :=
  λ p, match m p with
       | (Ok v, p') => k v p'
       | (Raise e, p') => (Raise e, p')
       end.

(** Creating a task. *)
Definition new_op (kind : string) (spec : list (string * value)) : B nat :=
  λ p, (Ok (length p), p ++ [Op kind spec []]).

(** [t.after(d)] *)
Definition set_after (t d : nat) : B unit :=
  λ p, (Ok (), alter (λ o, Op (kind o) (spec o) (after o ++ [d])) t p).

(** The tasks whose outputs occur in a value. *)
Fixpoint producers (v : value) : list nat :=
  match v with
  | Output t _ => [t]
  | Items vs =>
      (fix go (vs : list value) : list nat :=
         match vs with
         | [] => []
         | v :: vs => producers v ++ go vs
         end) vs
  | Dict kvs =>
      (fix go (kvs : list (string * value)) : list nat :=
         match kvs with
         | [] => []
         | (_, v) :: kvs => producers v ++ go kvs
         end) kvs
  | _ => []
  end.

(** The tasks a task waits for. *)
Definition deps (o : op) : list nat :=
  (spec o ≫= λ kv, producers kv.2) ++ after o.

(** For every task of [p], the tasks it waits for. *)
Definition waits (p : list op) : list (list nat) := deps <$> p.

(** [order] runs every task of [p] once, each one after the tasks it
    waits for. *)
Definition respects (p : list op) (order : list nat) : Prop :=
  order ≡ₚ seq 0 (length p) ∧
  ∀ i t ds d, order !! i = Some t → waits p !! t = Some ds → d ∈ ds →
              d ∈ take i order.

Definition respectsb (table : list (list nat)) (order : list nat) : bool :=
  forallb (λ '(i, t),
             match table !! t with
             | Some ds => forallb (λ d, bool_decide (d ∈ take i order)) ds
             | None => true
             end)
          (Py.enumerate order).

(** All the orders in which tasks with the given waits can run. *)
Definition schedules (table : list (list nat)) : list (list nat) :=
  filter (λ order, respectsb table order = true)
         (permutations (seq 0 (length table))).

End Kfp.

Declare Scope B_scope.
Delimit Scope B_scope with B.
Notation "x ←' m ; k" := (Kfp.bbind m (λ x, k))
  (at level 20, m at level 100, k at level 200, right associativity,
   only parsing) : B_scope.
Notation "m ;' k" := (Kfp.bbind m (λ _, k))
  (at level 100, k at level 200, right associativity, only parsing) : B_scope.

(** ** The notebook with components from docker images *)

Module Docker.

Import Kfp.
Local Open Scope B_scope.

(**
<<
  if len(numbers) < 1:
      raise ValueError("Must specify at least one number to take the average of")
  return dsl.ContainerOp(
      name="averge",
      image="k8scc01covidacr.azurecr.io/kfp-components/average:v1",
      arguments=numbers,
      file_outputs={'data': './out.txt'},
  )
>> *)
Definition average_op (numbers : list value) : B nat :=
  if (length numbers <? 1)%nat then braise ValueError
  else
    new_op "ContainerOp"
      [("name", Str "averge");
       ("image", Str "k8scc01covidacr.azurecr.io/kfp-components/average:v1");
       ("arguments", Items numbers);
       ("file_outputs", Dict [("data", Str "./out.txt")])].

(** [task.output] of a task with the one output [data]. *)
Definition output (task : nat) : value := Output task "data".

(**
<<
  def my_pipeline(a, b, c, d, e):
      avg_1 = average_op(a, b, c)
      avg_2 = average_op(d, e)
      average_result_overall = average_op(avg_1.output, avg_2.output)
>> *)
Definition my_pipeline (a b c d e : value) : B unit :=
  avg_1 ←' average_op [a; b; c];
  avg_2 ←' average_op [d; e];
  average_result_overall ←' average_op [output avg_1; output avg_2];
  bret ().

End Docker.

(** ** The notebook for Azure Databricks *)

Module Databricks.

Import Kfp.
Local Open Scope B_scope.

(**
<<
  def create_cluster(cluster_name):
      return databricks.CreateClusterOp(
          name="createcluster",
          cluster_name=cluster_name,
          spark_version="5.3.x-scala2.11",
          node_type_id="Standard_D3_v2",
          spark_conf={"spark.speculation": "true"},
          num_workers=2)
>> *)
Definition create_cluster (cluster_name : value) : B nat :=
  new_op "CreateClusterOp"
    [("name", Str "createcluster");
     ("cluster_name", cluster_name);
     ("spark_version", Str "5.3.x-scala2.11");
     ("node_type_id", Str "Standard_D3_v2");
     ("spark_conf", Dict [("spark.speculation", Str "true")]);
     ("num_workers", Int 2)].

(**
<<
  def submit_run(run_name, cluster_id, parameter):
      return databricks.SubmitRunOp(
          name="submitrun",
          run_name=run_name,
          existing_cluster_id=cluster_id,
          libraries=[{"jar": "dbfs:/docs/sparkpi.jar"}],
          spark_jar_task={
              "main_class_name": "org.apache.spark.examples.SparkPi",
              "parameters": [parameter]})
>> *)
Definition submit_run (run_name cluster_id parameter : value) : B nat :=
  new_op "SubmitRunOp"
    [("name", Str "submitrun");
     ("run_name", run_name);
     ("existing_cluster_id", cluster_id);
     ("libraries", Items [Dict [("jar", Str "dbfs:/docs/sparkpi.jar")]]);
     ("spark_jar_task",
      Dict [("main_class_name", Str "org.apache.spark.examples.SparkPi");
            ("parameters", Items [parameter])])].

(** [databricks.DeleteRunOp(name="deleterun", run_name=run_name)] *)
Definition delete_run (run_name : value) : B nat :=
  new_op "DeleteRunOp" [("name", Str "deleterun"); ("run_name", run_name)].

(** [databricks.DeleteClusterOp(name="deletecluster", cluster_name=cluster_name)] *)
Definition delete_cluster (cluster_name : value) : B nat :=
  new_op "DeleteClusterOp"
    [("name", Str "deletecluster"); ("cluster_name", cluster_name)].

(**
<<
  def pipeline_calc(cluster_name="test-cluster", run_name="test-run", parameter="10"):
      create_cluster_task = create_cluster(cluster_name)
      submit_run_task = submit_run(run_name, create_cluster_task.outputs["cluster_id"], parameter)
      delete_run_task = delete_run(run_name)
      delete_run_task.after(submit_run_task)
      delete_cluster_task = delete_cluster(cluster_name)
      delete_cluster_task.after(delete_run_task)
>> *)
Definition pipeline_calc (cluster_name run_name parameter : value) : B unit :=
  create_cluster_task ←' create_cluster cluster_name;
  submit_run_task ←'
    submit_run run_name (Output create_cluster_task "cluster_id") parameter;
  delete_run_task ←' delete_run run_name;
  set_after delete_run_task submit_run_task;'
  delete_cluster_task ←' delete_cluster cluster_name;
  set_after delete_cluster_task delete_run_task.

End Databricks.

(** ** The notebook on bucket storage

    The cells that create the personal bucket, upload a file, list the
    objects under a prefix and download the file again, on a store of
    buckets and a local disk that holds the bytes of each file.

    The client that [daaas_storage.get_standard_client()] returns comes
    from [daaas_storage.py], which is not among the sources.  Its calls are
    read as those of the object store client of the design, [put], [get]
    and a listing by prefix, on buckets of keyed objects that hold bytes,
    over a connection that does not fail. *)

Module Storage.

Record state : Type := State {
  buckets : gmap string (gmap string string);
  disk : gmap string string
}.

Definition S (A : Type) : Type := state → outcome A * state.

Definition sret {A} (v : A) : S A := λ s, (Ok v, s).

Definition sbind {A C} (m : S A) (k : A → S C) : S C :=
  λ s, match m s with
       | (Ok v, s') => k v s'
       | (Raise e, s') => (Raise e, s')
       end.

Definition AccessDenied : exn := "AccessDenied".
Definition NoSuchBucket : exn := "NoSuchBucket".
Definition BucketAlreadyOwnedByYou : exn := "BucketAlreadyOwnedByYou".

(** [s.startswith(p)] *)
Fixpoint starts_with (p s : string) : bool :=
  match p, s with
  | EmptyString, _ => true
  | String a p', String b s' => Ascii.eqb a b && starts_with p' s'
  | String _ _, EmptyString => false
  end.

Section client.

(** The naming convention of the server. *)
Variable follows_convention : string → bool.

(** What reading a file in text mode makes of its bytes: the decoded
    text, newlines translated, or the exception of the decoder. *)
Variable decode : string → outcome string.

(** Modelled from the spec: [storage.bucket_exists(bucket)], whether the
    store has a bucket of that name. *)
Definition bucket_exists (bucket : string) : S bool :=
  λ s, (Ok (bool_decide (is_Some (buckets s !! bucket))), s).

(** Modelled from the spec: [storage.make_bucket(bucket, region)].  As
    the notebook says, a bucket whose name does not follow the
    convention cannot be created: the call raises [AccessDenied]. *)
Definition make_bucket (bucket : string) : S unit :=
  λ s, if negb (follows_convention bucket) then (Raise AccessDenied, s)
       else match buckets s !! bucket with
            | Some _ => (Raise BucketAlreadyOwnedByYou, s)
            | None => (Ok (), State (<[bucket := ∅]> (buckets s)) (disk s))
            end.

(** Modelled from the spec: [storage.fput_object(bucket, object_name,
    file_path)], the [put] of the design with the bytes of a local
    file, the last write winning. *)
Definition fput_object (bucket object_name file_path : string) : S unit :=
  λ s, match disk s !! file_path with
       | None => (Raise FileNotFoundError, s)
       | Some content =>
           match buckets s !! bucket with
           | None => (Raise NoSuchBucket, s)
           | Some objects =>
               (Ok (),
                State (<[bucket := <[object_name := content]> objects]>
                         (buckets s))
                      (disk s))
           end
       end.

(** Modelled from the spec: [storage.list_objects(bucket, prefix=...,
    recursive=True)], every object of the bucket whose name starts with
    the prefix, with its name and its size in bytes; the order of the
    listing is left open. *)
Definition list_objects (bucket pfx : string) : S (list (string * nat)) :=
  λ s, match buckets s !! bucket with
       | None => (Raise NoSuchBucket, s)
       | Some objects =>
           (Ok ((λ kv, (kv.1, String.length kv.2))
                  <$> map_to_list
                        (filter (λ kv, starts_with pfx kv.1 = true) objects)),
            s)
       end.

(** Modelled from the spec: [storage.fget_object(bucket, object_name,
    file_path)], the [get] of the design, its bytes written to a local
    file. *)
Definition fget_object (bucket object_name file_path : string) : S unit :=
  λ s, match buckets s !! bucket with
       | None => (Raise NoSuchBucket, s)
       | Some objects =>
           match objects !! object_name with
           | None => (Raise NoSuchKey, s)
           | Some content =>
               (Ok (), State (buckets s) (<[file_path := content]> (disk s)))
           end
       end.

(** [with open(path, 'r') as file: file.read()] *)
Definition read (path : string) : S string :=
  λ s, match disk s !! path with
       | Some content => (decode content, s)
       | None => (Raise FileNotFoundError, s)
       end.

Definition LOCAL_FILE : string := "example.txt".
Definition REMOTE_FILE : string := "examples/Happy-DAaaS-Bird.txt".
Definition DL_FILE : string := "downloaded_example.txt".

(** The cells, one after the other; the listing and the text that they
    print are returned.
<<
if not storage.bucket_exists(bucket):
    storage.make_bucket(bucket, storage._region)
storage.fput_object(bucket, REMOTE_FILE, LOCAL_FILE)
objects = storage.list_objects(bucket, prefix='examples/', recursive=True)
storage.fget_object(bucket, REMOTE_FILE, DL_FILE)
with open(DL_FILE, 'r') as file:
    print(file.read())
>> *)
Definition cells (bucket : string) : S (list (string * nat) * string) :=
  sbind (bucket_exists bucket) (λ present,
  sbind (if negb present then make_bucket bucket else sret ()) (λ _,
  sbind (fput_object bucket REMOTE_FILE LOCAL_FILE) (λ _,
  sbind (list_objects bucket "examples/") (λ objects,
  sbind (fget_object bucket REMOTE_FILE DL_FILE) (λ _,
  sbind (read DL_FILE) (λ text,
  sret (objects, text))))))).

End client.

(** A decoder for the examples: it reads a row of printable ASCII
    characters as itself, and no other content. *)
Definition decode_ascii (content : string) : outcome string :=
  if forallb (λ c, (31 <? Ascii.nat_of_ascii c)%nat
                   && (Ascii.nat_of_ascii c <? 127)%nat)
       (String.list_ascii_of_string content)
  then Ok content
  else Raise "UnicodeDecodeError".

End Storage.
Lemma outcome_cases {A} (o : outcome A) : is_Ok o ∨ is_Raise o.
Proof. destruct o; [left | right]; eexists; reflexivity. Qed.

Lemma is_Ok_not_Raise {A} (o : outcome A) : is_Ok o → ¬ is_Raise o.
Proof. intros [v ->] [e He]. discriminate. Qed.

(** ** Facts about seeds *)

Section seeds.

Lemma create_seeds_func_Ok n :
  create_seeds_func n = Ok ((λ i, 10 + i) <$> seqZ 0 n).
Proof. reflexivity. Qed.

Lemma create_seeds_func_seqZ n : create_seeds_func n = Ok (seqZ 10 n).
Proof.
  rewrite create_seeds_func_Ok. f_equal.
  apply list_eq. intros i. rewrite list_lookup_fmap.
  destruct (decide (Z.of_nat i < n)) as [Hlt | Hge].
  - rewrite !lookup_seqZ_lt by lia. simpl. f_equal; lia.
  - rewrite !lookup_seqZ_ge by lia. reflexivity.
Qed.

Lemma create_seeds_func_nonpos n : n ≤ 0 → create_seeds_func n = Ok [].
Proof.
  intros Hn. rewrite create_seeds_func_seqZ. f_equal.
  unfold seqZ. replace (Z.to_nat n) with 0%nat by lia. reflexivity.
Qed.

Lemma seeds_lookup n (i : nat) :
  Z.of_nat i < n → seeds_of (create_seeds_func n) !! i = Some (10 + Z.of_nat i).
Proof.
  intros Hi. rewrite create_seeds_func_seqZ. simpl.
  rewrite lookup_seqZ_lt by lia. f_equal; lia.
Qed.

Lemma seeds_length n : length (seeds_of (create_seeds_func n)) = Z.to_nat n.
Proof. rewrite create_seeds_func_seqZ. simpl. apply length_seqZ. Qed.

Lemma seeds_NoDup n : NoDup (seeds_of (create_seeds_func n)).
Proof. rewrite create_seeds_func_seqZ. simpl. apply NoDup_seqZ. Qed.

Lemma seeds_prefix n m :
  n ≤ m → seeds_of (create_seeds_func n) `prefix_of` seeds_of (create_seeds_func m).
Proof.
  intros Hnm. rewrite !create_seeds_func_seqZ. simpl.
  destruct (decide (0 ≤ n)) as [Hn | Hn].
  - replace m with (n + (m - n)) by lia.
    rewrite seqZ_app by lia. by eexists.
  - unfold seqZ at 1. replace (Z.to_nat n) with 0%nat by lia.
    simpl. apply prefix_nil.
Qed.

End seeds.


(** ** The matcher computes the spans *)

Module RegexFacts.

Import Regex.

Section matcher.

Variable s : list ascii.

Lemma spans_le r i j : spans s r i j → (i ≤ j)%nat.
Proof. induction 1; lia. Qed.

Lemma spans_bound r i j : spans s r i j → (i < j)%nat → (j ≤ length s)%nat.
Proof.
  induction 1 as [ | c i Hc | c i Hc Hnl | | r1 r2 i j k H1 IH1 H2 IH2
                 | | | | r i j k H1 IH1 H2 IH2 ]; intros Hlt; try lia.
  - apply lookup_lt_Some in Hc. lia.
  - apply lookup_lt_Some in Hc. lia.
Qed.

Lemma star_from_sound r step fuel i j :
  (∀ i j, j ∈ step i → spans s r i j) →
  j ∈ star_from step fuel i → spans s (Star r) i j.
Proof.
  intros Hstep. revert i.
  induction fuel as [ | fuel IH]; intros i; simpl.
  - rewrite list_elem_of_singleton. intros ->. constructor.
  - rewrite elem_of_cons. intros [-> | Hin]; [constructor | ].
    apply list_elem_of_bind in Hin as (k & Hj & Hk).
    apply list_elem_of_filter in Hk as [_ Hk].
    eapply spans_Star_more; eauto.
Qed.

Lemma star_from_mono step fuel fuel' i j :
  (fuel ≤ fuel')%nat →
  j ∈ star_from step fuel i → j ∈ star_from step fuel' i.
Proof.
  revert fuel' i.
  induction fuel as [ | fuel IH]; intros fuel' i Hle; simpl.
  - rewrite list_elem_of_singleton. intros ->.
    destruct fuel'; simpl; apply list_elem_of_here.
  - destruct fuel' as [ | fuel']; [lia | ]. simpl.
    rewrite !elem_of_cons. intros [-> | Hin]; [by left | right].
    apply list_elem_of_bind in Hin as (k & Hj & Hk).
    apply list_elem_of_bind. exists k. split; [ | done].
    apply IH; [lia | done].
Qed.

Lemma ends_sound r : ∀ i j, j ∈ ends s r i → spans s r i j.
Proof.
  induction r as [ | c | | | r1 IH1 r2 IH2 | r1 IH1 r2 IH2 | r IH];
    intros i j; simpl.
  - rewrite list_elem_of_singleton. intros ->. constructor.
  - destruct (s !! i) as [c' | ] eqn:Hc; [ | by rewrite elem_of_nil].
    destruct (Ascii.eqb c c') eqn:Heq; [ | by rewrite elem_of_nil].
    apply Ascii.eqb_eq in Heq as <-.
    rewrite list_elem_of_singleton. intros ->. by constructor.
  - destruct (s !! i) as [c' | ] eqn:Hc; [ | by rewrite elem_of_nil].
    destruct (Ascii.eqb c' newline) eqn:Heq; [by rewrite elem_of_nil | ].
    apply Ascii.eqb_neq in Heq.
    rewrite list_elem_of_singleton. intros ->. by econstructor.
  - destruct (Nat.eqb_spec i 0) as [-> | Hne]; [ | by rewrite elem_of_nil].
    rewrite list_elem_of_singleton. intros ->. constructor.
  - intros Hin. apply list_elem_of_bind in Hin as (k & Hj & Hk).
    econstructor; eauto.
  - rewrite elem_of_app. intros [Hin | Hin].
    + apply spans_Alt_l. eauto.
    + apply spans_Alt_r. eauto.
  - apply star_from_sound. exact IH.
Qed.

Lemma ends_complete r i j : spans s r i j → j ∈ ends s r i.
Proof.
  induction 1 as [ i | c i Hc | c i Hc Hnl | | r1 r2 i j k H1 IH1 H2 IH2
                 | r1 r2 i j H IH | r1 r2 i j H IH | r i
                 | r i j k H1 IH1 H2 IH2 ]; simpl.
  - apply list_elem_of_here.
  - rewrite Hc, Ascii.eqb_refl. apply list_elem_of_here.
  - rewrite Hc. apply Ascii.eqb_neq in Hnl. rewrite Hnl.
    apply list_elem_of_here.
  - apply list_elem_of_here.
  - apply list_elem_of_bind. eauto.
  - apply elem_of_app. by left.
  - apply elem_of_app. by right.
  - destruct (length s - i)%nat; simpl; apply list_elem_of_here.
  - simpl in IH2.
    apply spans_le in H1 as Hij.
    destruct (decide (i = j)) as [-> | Hne]; [done | ].
    assert (Hj : (j ≤ length s)%nat) by (eapply spans_bound; [done | lia]).
    destruct (length s - i)%nat as [ | fuel] eqn:Hfuel; [lia | ].
    simpl. apply list_elem_of_further, list_elem_of_bind.
    exists j. split.
    + eapply star_from_mono; [ | done]. lia.
    + apply list_elem_of_filter. split; [lia | done].
Qed.

Lemma ends_spans r i j : j ∈ ends s r i ↔ spans s r i j.
Proof. split; [apply ends_sound | apply ends_complete]. Qed.

Lemma search_spans r :
  search s r = true ↔ ∃ i j, (i ≤ length s)%nat ∧ spans s r i j.
Proof.
  unfold search. rewrite existsb_exists. split.
  - intros (i & Hi & Hne). apply in_seq in Hi.
    apply bool_decide_eq_true in Hne.
    destruct (ends s r i) as [ | j l] eqn:He; [done | ].
    exists i, j. split; [lia | ].
    apply ends_sound. rewrite He. apply list_elem_of_here.
  - intros (i & j & Hi & Hs). exists i. split; [apply in_seq; lia | ].
    apply bool_decide_eq_true. apply ends_complete in Hs.
    intros He. rewrite He in Hs. by apply elem_of_nil in Hs.
Qed.

End matcher.

End RegexFacts.

(** ** What the two search patterns match *)

Module PatternFacts.

Import Regex RegexFacts.

Lemma list_ascii_of_string_app (a b : string) :
  String.list_ascii_of_string (a +:+ b)
  = String.list_ascii_of_string a ++ String.list_ascii_of_string b.
Proof. induction a as [ | c a IH]; simpl; [done | by rewrite IH]. Qed.

Lemma string_of_list_ascii_app (a b : list ascii) :
  String.string_of_list_ascii (a ++ b)
  = String.string_of_list_ascii a +:+ String.string_of_list_ascii b.
Proof. induction a as [ | c a IH]; simpl; [done | by rewrite IH]. Qed.

Section matcher.

Variable s : list ascii.

Lemma spans_atom a i j :
  spans s (atom a) i j ↔ j = S i ∧ ∃ c, s !! i = Some c ∧ fits a c.
Proof.
  destruct a as [c' | ]; simpl; split.
  - inversion 1; subst. eauto.
  - intros (-> & c & Hc & ->). by constructor.
  - inversion 1; subst. eauto.
  - intros (-> & c & Hc & Hnl). by econstructor.
Qed.

Lemma spans_word w : ∀ i j,
  spans s (word w) i j ↔
  ∃ cs, Forall2 fits w cs ∧ drop i s = cs ++ drop j s ∧ j = (i + length cs)%nat.
Proof.
  induction w as [ | a w IH]; intros i j; simpl.
  - split.
    + inversion 1; subst. exists []. split; [constructor | ].
      split; [done | simpl; lia].
    + intros (cs & Hcs & _ & ->). inversion Hcs; subst. simpl.
      rewrite Nat.add_0_r. constructor.
  - split.
    + inversion 1 as [ | | | | r1 r2 i' k j' Ha Hw | | | | ]; subst.
      apply spans_atom in Ha as (-> & c & Hc & Hfit).
      apply IH in Hw as (cs & Hcs & Hdrop & ->).
      exists (c :: cs). split; [by constructor | ]. split.
      * rewrite (drop_S _ _ _ Hc), Hdrop. done.
      * simpl. lia.
    + intros (cs & Hcs & Hdrop & ->).
      inversion Hcs as [ | a' c w' cs' Hfit Hcs' ]; subst.
      assert (Hc : s !! i = Some c).
      { rewrite <- (Nat.add_0_r i), <- lookup_drop, Hdrop. done. }
      apply spans_Seq with (S i).
      * apply spans_atom. eauto.
      * apply IH. exists cs'. split; [done | ]. split; [ | simpl; lia].
        rewrite (drop_S _ _ _ Hc) in Hdrop. simpl in Hdrop.
        by inversion Hdrop.
Qed.

(** A word is found exactly when the subject has a piece that fits it. *)
Lemma word_found w i :
  (∃ j, spans s (word w) i j) ↔
  ∃ cs post, Forall2 fits w cs ∧ drop i s = cs ++ post.
Proof.
  split.
  - intros (j & Hw). apply spans_word in Hw as (cs & Hcs & Hdrop & _). eauto.
  - intros (cs & post & Hcs & Hdrop). exists (i + length cs)%nat.
    apply spans_word. exists cs. split; [done | ]. split; [ | done].
    rewrite <- drop_drop, Hdrop, drop_app_length. done.
Qed.

End matcher.

Section found.

Lemma search_word s w :
  search s (word w) = true ↔
  ∃ pre cs post, Forall2 fits w cs ∧ s = pre ++ cs ++ post.
Proof.
  rewrite search_spans. split.
  - intros (i & j & _ & Hw).
    destruct (proj1 (word_found s w i)) as (cs & post & Hcs & Hdrop); [eauto | ].
    exists (take i s), cs, post. split; [done | ].
    rewrite <- Hdrop, take_drop. done.
  - intros (pre & cs & post & Hcs & ->).
    destruct (proj2 (word_found (pre ++ cs ++ post) w (length pre))) as (j & Hw).
    { exists cs, post. split; [done | ]. by rewrite drop_app_length. }
    exists (length pre), j. split; [ | done].
    rewrite length_app. lia.
Qed.

Lemma search_anywhere_in_segment s w :
  search s (anywhere_in_segment w) = true ↔
  (∃ cs post, Forall2 fits w cs ∧ s = cs ++ post) ∨
  (∃ pre cs post, Forall2 fits w cs ∧ s = pre ++ "/"%char :: cs ++ post).
Proof.
  rewrite search_spans. split.
  - intros (i & j & _ & H).
    inversion H as [ | | | | r1 r2 i1 k j1 Hstar Hrest | | | | ]; subst.
    inversion Hrest as [ | | | | r1 r2 i1 k' j1 Halt Hw | | | | ]; subst.
    destruct (proj1 (word_found s w k')) as (cs & post & Hcs & Hdrop); [eauto | ].
    inversion Halt as [ | | | | | r1 r2 i1 j1 Hl | r1 r2 i1 j1 Hr | | ]; subst.
    + inversion Hl as [ | | | | r1 r2 i1 k1 j1 Hb He | | | | ]; subst.
      inversion Hb; subst. inversion He; subst.
      left. exists cs, post. split; [done | ]. by rewrite <- Hdrop.
    + inversion Hr as [ | | | | r1 r2 i1 k1 j1 Hc He | | | | ]; subst.
      inversion Hc as [ | c i1 Hk | | | | | | | ]; subst. inversion He; subst.
      right. exists (take k s), cs, post. split; [done | ].
      rewrite <- Hdrop. symmetry. by apply take_drop_middle.
  - intros [(cs & post & Hcs & ->) | (pre & cs & post & Hcs & ->)].
    + destruct (proj2 (word_found (cs ++ post) w 0)) as (j & Hw); [by eauto | ].
      exists 0%nat, j. split; [lia | ].
      apply spans_Seq with 0%nat; [constructor | ].
      apply spans_Seq with 0%nat; [ | done].
      apply spans_Alt_l. apply spans_Seq with 0%nat; constructor.
    + destruct (proj2 (word_found (pre ++ "/"%char :: cs ++ post) w
                         (S (length pre)))) as (j & Hw).
      { exists cs, post. split; [done | ].
        rewrite cons_middle, app_assoc.
        apply drop_app_length'. rewrite length_app. simpl. lia. }
      exists (length pre), j. split; [rewrite length_app; lia | ].
      apply spans_Seq with (length pre); [constructor | ].
      apply spans_Seq with (S (length pre)); [ | done].
      apply spans_Alt_r. apply spans_Seq with (S (length pre)); constructor.
      by rewrite list_lookup_middle.
Qed.

End found.

Lemma compile_lightweight :
  compile Lightweight.search_pattern = Some (anywhere_in_segment result_out).
Proof. reflexivity. Qed.

Lemma compile_reusable :
  compile Reusable.search_pattern = Some (word (Some "/"%char :: result_out)).
Proof. reflexivity. Qed.

Lemma fits_result_out cs :
  Forall2 fits result_out cs ↔
  ∃ hit, result_any_out hit ∧ cs = String.list_ascii_of_string hit.
Proof.
  unfold result_out, result_any_out. split.
  - intros H.
    repeat match goal with
           | H : Forall2 _ (_ :: _) _ |- _ => inversion H; clear H; subst
           | H : Forall2 _ [] _ |- _ => inversion H; clear H; subst
           end.
    simpl in *. subst.
    match goal with Hnl : ?c ≠ newline |- _ =>
      exists ("result" +:+ String c "out"); split; [by exists c | done] end.
  - intros (hit & (c & -> & Hnl) & ->). simpl.
    repeat (constructor; [by simpl | ]). constructor.
Qed.

Lemma list_ascii_of_string_eq key l :
  String.list_ascii_of_string key = l → key = String.string_of_list_ascii l.
Proof. intros <-. by rewrite String.string_of_list_ascii_of_string. Qed.

Lemma key_matches_lightweight key :
  key_matches Lightweight.search_pattern key = true ↔
  ∃ hit, result_any_out hit ∧ starts_segment key hit.
Proof.
  unfold key_matches. rewrite compile_lightweight, search_anywhere_in_segment.
  unfold starts_segment. split.
  - intros [(cs & post & Hcs & Hs) | (pre & cs & post & Hcs & Hs)];
      apply fits_result_out in Hcs as (hit & Hhit & ->);
      apply list_ascii_of_string_eq in Hs; exists hit; (split; [done | ]).
    + left. exists (String.string_of_list_ascii post).
      by rewrite Hs, string_of_list_ascii_app,
        String.string_of_list_ascii_of_string.
    + right. exists (String.string_of_list_ascii pre),
        (String.string_of_list_ascii post).
      rewrite Hs, string_of_list_ascii_app. simpl.
      by rewrite string_of_list_ascii_app,
        String.string_of_list_ascii_of_string.
  - intros (hit & Hhit & [(post & ->) | (pre & post & ->)]).
    + left. exists (String.list_ascii_of_string hit),
        (String.list_ascii_of_string post).
      split; [apply fits_result_out; eauto | ].
      apply list_ascii_of_string_app.
    + right. exists (String.list_ascii_of_string pre),
        (String.list_ascii_of_string hit), (String.list_ascii_of_string post).
      split; [apply fits_result_out; eauto | ].
      by rewrite !list_ascii_of_string_app.
Qed.

Lemma key_matches_reusable key :
  key_matches Reusable.search_pattern key = true ↔
  ∃ hit, result_any_out hit ∧ follows_slash key hit.
Proof.
  unfold key_matches. rewrite compile_reusable, search_word.
  unfold follows_slash. split.
  - intros (pre & cs & post & Hcs & Hs).
    inversion Hcs as [ | a c w cs' Hc Hcs' ]; subst. simpl in Hc. subst c.
    apply fits_result_out in Hcs' as (hit & Hhit & ->).
    apply list_ascii_of_string_eq in Hs. exists hit. split; [done | ].
    exists (String.string_of_list_ascii pre), (String.string_of_list_ascii post).
    rewrite Hs, string_of_list_ascii_app. simpl.
    by rewrite string_of_list_ascii_app, String.string_of_list_ascii_of_string.
  - intros (hit & Hhit & pre & post & ->).
    exists (String.list_ascii_of_string pre),
      ("/"%char :: String.list_ascii_of_string hit),
      (String.list_ascii_of_string post).
    split; [constructor; [done | apply fits_result_out; eauto] | ].
    by rewrite !list_ascii_of_string_app.
Qed.

End PatternFacts.

(** ** Running the components *)

Module RunFacts.

Import Num.

Lemma bind_Ok {A B} (m : M A) (k : A → M B) w v w' :
  m w = (Ok v, w') → bind m k w = k v w'.
Proof. unfold bind. by intros ->. Qed.

Lemma bind_Raise {A B} (m : M A) (k : A → M B) w e w' :
  m w = (Raise e, w') → bind m k w = (Raise e, w').
Proof. unfold bind. by intros ->. Qed.

(** *** Collecting *)

Section collect.

Variable find : gmap string string → string → string → outcome (list string).
Variable float_of_text : string → option float.

Local Abbreviation fetch_into := (Lightweight.fetch_into float_of_text).
Local Abbreviation fetch_parse := (fetch_parse float_of_text).
Local Abbreviation gather_all := (gather_all float_of_text).

Lemma fetch_into_run i name acc w :
  ∃ w', bucket w' = bucket w ∧
    fetch_into (i, name) acc w =
      (match fetch_parse (bucket w) name with
       | Ok v => Ok (<[i := Some v]> acc)
       | Raise e => Raise e
       end, w').
Proof.
  unfold Lightweight.fetch_into, fetch_parse, bind, Io.fget_object.
  destruct (bucket w !! name) as [text | ] eqn:Hb; [ | by exists w].
  unfold Io.read_file. simpl. rewrite lookup_insert_eq.
  unfold Lightweight.py_float.
  destruct (float_of_text text) as [v | ]; unfold ret, raise; simpl;
    eexists; (split; [ | reflexivity]); done.
Qed.

Lemma loop_run names : ∀ k acc w,
  length acc = (k + length names)%nat →
  ∃ w', bucket w' = bucket w ∧
    for_in (zip (seq k (length names)) names) acc fetch_into w =
      (match gather_all (bucket w) names with
       | Ok vs => Ok (take k acc ++ (Some <$> vs))
       | Raise e => Raise e
       end, w').
Proof.
  induction names as [ | name names IH]; intros k acc w Hlen; simpl.
  - exists w. split; [done | ]. unfold ret.
    rewrite take_ge by (simpl in Hlen; lia). by rewrite app_nil_r.
  - simpl in Hlen.
    destruct (fetch_into_run k name acc w) as (w1 & Hb1 & Hstep).
    destruct (fetch_parse (bucket w) name) as [v | e] eqn:Hfp.
    + rewrite (bind_Ok _ _ _ _ _ Hstep).
      destruct (IH (S k) (<[k := Some v]> acc) w1) as (w2 & Hb2 & Hrest).
      { rewrite length_insert. lia. }
      exists w2. split; [congruence | ]. rewrite Hrest, Hb1.
      destruct (gather_all (bucket w) names) as [vs | e]; [ | done].
      do 2 f_equal.
      rewrite (take_S_r _ _ (Some v)).
      * rewrite take_insert_ge by lia. by rewrite <- app_assoc.
      * apply list_lookup_insert_eq. lia.
    + rewrite (bind_Raise _ _ _ _ _ Hstep). eauto.
Qed.

Lemma collect_results_as_list_run loc pat w :
  (Lightweight.collect_results_as_list find float_of_text loc pat w).1 =
    match find (bucket w) pat loc with
    | Raise e => Raise e
    | Ok names =>
        match gather_all (bucket w) names with
        | Ok vs => Ok (Some <$> vs)
        | Raise e => Raise e
        end
    end.
Proof.
  unfold Lightweight.collect_results_as_list, bind at 1, lift.
  destruct (find (bucket w) pat loc) as [names | e]; [ | done].
  destruct (loop_run names 0 (replicate (length names) None) w)
    as (w' & _ & Hloop).
  { by rewrite length_replicate. }
  unfold Py.enumerate, bind. rewrite Hloop.
  destruct (gather_all (bucket w) names) as [vs | e]; done.
Qed.

(** The collection only reads the bucket and makes no put. *)
Lemma fetch_into_keeps item acc w :
  bucket (fetch_into item acc w).2 = bucket w ∧
  puts (fetch_into item acc w).2 = puts w.
Proof.
  destruct item as [i name].
  unfold Lightweight.fetch_into, bind, Io.fget_object.
  destruct (bucket w !! name) as [text | ]; [ | done].
  unfold Io.read_file. simpl. rewrite lookup_insert_eq.
  unfold Lightweight.py_float.
  by destruct (float_of_text text).
Qed.

Lemma loop_keeps items : ∀ acc w,
  bucket (for_in items acc fetch_into w).2 = bucket w ∧
  puts (for_in items acc fetch_into w).2 = puts w.
Proof.
  induction items as [ | item items IH]; intros acc w; [done | ].
  simpl. unfold bind.
  destruct (fetch_into_keeps item acc w) as [Hb Hp].
  destruct (fetch_into item acc w) as [[acc' | e] w1]; simpl in *.
  - destruct (IH acc' w1) as [Hb' Hp']. split; congruence.
  - done.
Qed.

Lemma collect_keeps loc pat w :
  bucket (Lightweight.collect_results_as_list find float_of_text loc pat w).2
  = bucket w ∧
  puts (Lightweight.collect_results_as_list find float_of_text loc pat w).2
  = puts w.
Proof.
  unfold Lightweight.collect_results_as_list, bind, lift, ret.
  destruct (find (bucket w) pat loc) as [names | e]; [ | by split].
  destruct (loop_keeps (Py.enumerate names)
              (replicate (length names) None) w) as [Hb Hp].
  destruct (for_in _ _ _ w) as [[r | e] w1]; by split.
Qed.

Lemma fetch_parse_Ok b name v :
  fetch_parse b name = Ok v ↔ holds_float float_of_text b name v.
Proof.
  unfold fetch_parse, holds_float. split.
  - destruct (b !! name) as [text | ]; [ | done].
    destruct (float_of_text text) as [v' | ] eqn:Hf; [ | done].
    intros [= <-]. eauto.
  - intros (text & -> & ->). done.
Qed.

Lemma fetch_parse_Raise b name e :
  fetch_parse b name = Raise e → e = NoSuchKey ∨ e = ValueError.
Proof.
  unfold fetch_parse. destruct (b !! name) as [text | ].
  - destruct (float_of_text text); [done | ]. intros [= <-]. by right.
  - intros [= <-]. by left.
Qed.

Lemma gather_all_Ok b names vs :
  gather_all b names = Ok vs ↔
  Forall2 (λ name v, fetch_parse b name = Ok v) names vs.
Proof.
  revert vs. induction names as [ | name names IH]; intros vs; simpl.
  - split; [intros [= <-]; constructor | by inversion 1].
  - destruct (fetch_parse b name) as [v | e] eqn:Hfp.
    + destruct (gather_all b names) as [vs' | e'].
      * split.
        -- intros [= <-]. constructor; [done | by apply IH].
        -- inversion 1 as [ | ? v' ? vs'' Hv Hvs ]; subst.
           apply IH in Hvs. congruence.
      * split; [done | ].
        inversion 1 as [ | ? v' ? vs'' Hv Hvs ]; subst.
        by apply IH in Hvs.
    + split; [done | ]. inversion 1; congruence.
Qed.

(** A raise is the exception of the first name that fails. *)
Lemma gather_all_Raise b names e :
  gather_all b names = Raise e ↔
  ∃ i name, names !! i = Some name ∧ fetch_parse b name = Raise e ∧
    ∀ j name', (j < i)%nat → names !! j = Some name' →
               is_Ok (fetch_parse b name').
Proof.
  induction names as [ | name names IH]; simpl.
  - split; [done | ]. by intros (i & name & Hi & _).
  - destruct (fetch_parse b name) as [v | e'] eqn:Hfp.
    + destruct (gather_all b names) as [vs' | e''].
      * split; [done | ]. intros (i & name' & Hi & He & Hbefore).
        destruct i as [ | i]; simpl in Hi; [congruence | ].
        enough (@Ok (list float) vs' = Raise e) by done.
        apply IH. exists i, name'. split; [done | ]. split; [done | ].
        intros j n Hj Hn. apply (Hbefore (S j)); [lia | done].
      * split.
        -- intros [= ->]. destruct (proj1 IH eq_refl) as (i & n & Hi & He & Hb).
           exists (S i), n. split; [done | ]. split; [done | ].
           intros [ | j] n' Hj Hn'; simpl in Hn'.
           ++ injection Hn' as <-. by exists v.
           ++ apply (Hb j); [lia | done].
        -- intros (i & n & Hi & He & Hbefore).
           destruct i as [ | i]; simpl in Hi; [congruence | ].
           apply IH. exists i, n. split; [done | ]. split; [done | ].
           intros j n' Hj Hn'. apply (Hbefore (S j)); [lia | done].
    + split.
      * intros [= ->]. exists 0%nat, name. split; [done | ].
        split; [done | ]. intros; lia.
      * intros (i & n & Hi & He & Hbefore).
        destruct i as [ | i]; simpl in Hi.
        -- congruence.
        -- destruct (Hbefore 0%nat name) as [v Hv]; [lia | done | congruence].
Qed.

End collect.

End RunFacts.

(** ** Strings, sampling and averaging *)

Module ComponentFacts.

Import Num RunFacts PatternFacts.

Lemma append_assoc (a b c : string) : (a +:+ b) +:+ c = a +:+ (b +:+ c).
Proof.
  induction a as [ | x a IH]; [done | ].
  change (String x ((a +:+ b) +:+ c) = String x (a +:+ (b +:+ c))).
  by f_equal.
Qed.

Lemma append_inj_l (a b c : string) : a +:+ c = b +:+ c → a = b.
Proof.
  intros H. apply (f_equal String.list_ascii_of_string) in H.
  rewrite !list_ascii_of_string_app in H. apply app_inv_tail in H.
  apply (f_equal String.string_of_list_ascii) in H.
  by rewrite !String.string_of_list_ascii_of_string in H.
Qed.

(** Stripping leaves alone a text that ends in [/seeds]. *)
Lemma rstrip_slash_seeds (p : string) :
  Py.rstrip_slash (p +:+ "/seeds") = p +:+ "/seeds".
Proof.
  unfold Py.rstrip_slash. rewrite list_ascii_of_string_app.
  set (l := String.list_ascii_of_string p).
  assert (H : ∃ t, rev (l ++ String.list_ascii_of_string "/seeds")
                   = "s"%char :: t).
  { rewrite rev_app_distr. simpl. eauto. }
  destruct H as (t & H). rewrite H.
  change (Py.drop_slashes ("s"%char :: t)) with ("s"%char :: t).
  rewrite <- H, rev_involutive.
  subst l. by rewrite <- list_ascii_of_string_app,
    String.string_of_list_ascii_of_string.
Qed.

Lemma destination_inj path seed seed' tempfile :
  Lightweight.destination path seed tempfile
  = Lightweight.destination path seed' tempfile →
  seed = seed'.
Proof.
  unfold Lightweight.destination, Py.str_int. intros H.
  do 2 apply String.app_inj in H.
  apply append_inj_l in H. by apply pretty_Z_inj in H.
Qed.

Lemma seed_result_key_destination output_location run_id seed :
  Lightweight.destination
    (Lightweight.sample_output_location output_location run_id) seed "result.out"
  = seed_result_key (Py.rstrip_slash output_location) run_id seed.
Proof.
  unfold Lightweight.destination, Lightweight.sample_output_location.
  rewrite rstrip_slash_seeds.
  unfold Lightweight.this_run_output_location, seed_result_key, Py.str_int.
  by rewrite !append_assoc.
Qed.

(** *** Sampling *)

Section sample.

Context {rng : Type}.
Variable random_seed : Z → rng.
Variable random_random : rng → float * rng.
Variable pow : float → float → float.
Variable str_float : float → string.

Lemma put_entry_run path seed entry w :
  ∃ fs, Lightweight.put_entry str_float path seed entry () w =
          (Ok (),
           World fs (after_puts [put_of str_float path seed entry] (bucket w))
             (put_of str_float path seed entry :: puts w)).
Proof.
  destruct entry as [varname value].
  unfold Lightweight.put_entry, bind, Io.write_file, Io.copy_to_minio, put_of.
  simpl. rewrite lookup_insert_eq. eauto.
Qed.

Lemma put_loop_run path seed entries : ∀ w,
  ∃ fs, for_in entries () (Lightweight.put_entry str_float path seed) w =
          (Ok (),
           World fs
             (after_puts (rev (put_of str_float path seed <$> entries))
                (bucket w))
             (rev (put_of str_float path seed <$> entries) ++ puts w)).
Proof.
  induction entries as [ | entry entries IH]; intros w; simpl.
  - exists (files w). by destruct w.
  - destruct (put_entry_run path seed entry w) as (fs & Hstep).
    rewrite (bind_Ok _ _ _ _ _ Hstep).
    destruct (IH (World fs
                    (after_puts [put_of str_float path seed entry] (bucket w))
                    (put_of str_float path seed entry :: puts w)))
      as (fs' & Hrest).
    exists fs'. rewrite Hrest. simpl.
    unfold after_puts. rewrite foldr_app, <- app_assoc. done.
Qed.

Lemma sample_func_run seed path w :
  ∃ fs, Lightweight.sample_func random_seed random_random pow str_float
          seed path w =
        (Ok path,
         World fs
           (after_puts
              (rev (put_of str_float path seed
                      <$> Lightweight.to_output random_seed random_random
                            pow seed))
              (bucket w))
           (rev (put_of str_float path seed
                   <$> Lightweight.to_output random_seed random_random pow seed)
            ++ puts w)).
Proof.
  unfold Lightweight.sample_func.
  destruct (put_loop_run path seed
              (Lightweight.to_output random_seed random_random pow seed) w)
    as (fs & Hloop).
  rewrite (bind_Ok _ _ _ _ _ Hloop). by exists fs.
Qed.

Lemma to_output_entries seed :
  ∃ x y,
    x = ((random_random (random_seed seed)).1 * 2 - 1)%float ∧
    y = ((random_random (random_random (random_seed seed)).2).1 * 2 - 1)%float ∧
    Lightweight.to_output random_seed random_random pow seed =
      [("x", PyFloat x); ("y", PyFloat y); ("result", PyInt (hit pow x y));
       ("seed", PyInt seed)].
Proof.
  unfold Lightweight.to_output, hit.
  destruct (random_random (random_seed seed)) as [u1 g1]. simpl.
  destruct (random_random g1) as [u2 g2]. simpl. eauto.
Qed.

Lemma reusable_sample_func_run seed :
  ∃ x y,
    x = ((random_random (random_seed seed)).1 * 2 - 1)%float ∧
    y = ((random_random (random_random (random_seed seed)).2).1 * 2 - 1)%float ∧
    Reusable.sample_func random_seed random_random pow seed =
      Ok {| Reusable.x := x; Reusable.y := y;
            Reusable.result := hit pow x y; Reusable.seed := seed |}.
Proof.
  unfold Reusable.sample_func, hit.
  destruct (random_random (random_seed seed)) as [u1 g1]. simpl.
  destruct (random_random g1) as [u2 g2]. simpl. eauto.
Qed.

End sample.

Lemma hit_values pow x y : hit pow x y = 4 ∨ hit pow x y = 0.
Proof. unfold hit. destruct (_ <=? _)%float; auto. Qed.

(** A put of the lightweight [sample_func] never goes to the key of the
    final result. *)
Lemma destination_not_final output_location run_id seed tempfile :
  Lightweight.destination
    (Lightweight.sample_output_location output_location run_id) seed tempfile
  ≠ Layout.final_key (Py.rstrip_slash output_location) run_id.
Proof.
  unfold Lightweight.destination, Lightweight.sample_output_location.
  rewrite rstrip_slash_seeds.
  unfold Lightweight.this_run_output_location, Layout.final_key.
  rewrite !append_assoc. intros H.
  do 3 apply String.app_inj in H. discriminate H.
Qed.

(** The last stage reads the bucket and makes no put. *)
Lemma collect_and_average_keeps
    (find : gmap string string → string → string → outcome (list string))
    (float_of_text : string → option float)
    (serialize : list (option float) → string)
    (json_loads : string → outcome json)
    (output_location run_id : string) (w : world) :
  puts (LightweightRun.collect_and_average find float_of_text serialize
          json_loads output_location run_id w).2 = puts w ∧
  bucket (LightweightRun.collect_and_average find float_of_text serialize
            json_loads output_location run_id w).2 = bucket w.
Proof.
  unfold LightweightRun.collect_and_average, bind,
    LightweightRun.in_container, lift.
  destruct (collect_keeps find float_of_text
              (Lightweight.sample_output_location output_location run_id)
              Lightweight.search_pattern (World ∅ (bucket w) (puts w)))
    as [Hb Hp].
  destruct (Lightweight.collect_results_as_list _ _ _ _ _) as [[r | e] w1];
    simpl in *; by split.
Qed.

(** *** Averaging *)

Lemma limit_above_lengths : 2 ^ 63 ≤ float_limit.
Proof. vm_compute. discriminate. Qed.

Lemma float_of_int_zero : float_of_int 0 = Ok 0%float.
Proof. reflexivity. Qed.

(** For a count, the conversion is the rounding of the standard. *)
Lemma float_of_int_count (n : Z) :
  0 ≤ n < 2 ^ 63 →
  ∃ d, float_of_int n = Ok d ∧
       Prim2SF d = binary_normalize prec emax n 0 false.
Proof.
  intros Hn. pose proof limit_above_lengths as Hl.
  unfold float_of_int.
  assert (Hlt : (Z.abs n <? float_limit) = true) by (apply Z.ltb_lt; lia).
  rewrite Hlt. eexists. split; [reflexivity | ].
  assert (H : binary_normalize prec emax n 0 false
              = Prim2SF (of_uint63 (Uint63.of_Z n))).
  { rewrite FloatAxioms.of_uint63_spec. f_equal.
    rewrite Uint63.of_Z_spec. symmetry. apply Z.mod_small. exact Hn. }
  rewrite H. by rewrite SF2Prim_Prim2SF.
Qed.

Lemma sum_from_floats (numbers : list float) : ∀ total,
  sum_from (PyFloat total) (JFloat <$> numbers)
  = Ok (PyFloat (fold_left PrimFloat.add numbers total)).
Proof.
  induction numbers as [ | v numbers IH]; intros total; [done | ].
  simpl. apply IH.
Qed.

Lemma Prim2SF_total (numbers : list float) : ∀ total,
  Prim2SF (fold_left PrimFloat.add numbers total)
  = fold_left (λ t v, SFadd prec emax t (Prim2SF v)) numbers (Prim2SF total).
Proof.
  induction numbers as [ | v numbers IH]; intros total; [done | ].
  simpl. rewrite IH. by rewrite FloatAxioms.add_spec.
Qed.

(** The sum of a list of floats, and its reading in the standard. *)
Lemma sum_floats (numbers : list float) :
  numbers ≠ [] →
  ∃ total, Num.sum (JList (JFloat <$> numbers)) = Ok (PyFloat total) ∧
           Prim2SF total = ieee_total numbers.
Proof.
  intros Hne. destruct numbers as [ | v numbers]; [done | ].
  exists (fold_left PrimFloat.add numbers (0 + v)%float). split.
  - unfold Num.sum. simpl. apply sum_from_floats.
  - rewrite Prim2SF_total, FloatAxioms.add_spec. reflexivity.
Qed.

Lemma len_floats (numbers : list float) :
  Num.len (JList (JFloat <$> numbers)) = Ok (Z.of_nat (length numbers)).
Proof. unfold Num.len. simpl. by rewrite length_fmap. Qed.

(** [average_func] on the text of a non-empty list of floats. *)
Lemma average_func_floats (json_loads : string → outcome json)
    (text : string) (numbers : list float) :
  json_loads text = Ok (JList (JFloat <$> numbers)) →
  numbers ≠ [] →
  Z.of_nat (length numbers) < 2 ^ 63 →
  ∃ mean, average_func json_loads text = Ok mean ∧
          Prim2SF mean = arithmetic_mean numbers.
Proof.
  intros Hload Hne Hlen.
  destruct (sum_floats numbers Hne) as (total & Hsum & Htotal).
  destruct (float_of_int_count (Z.of_nat (length numbers)))
    as (d & Hd & Hcount); [lia | ].
  exists (total / d)%float. split.
  - unfold average_func. rewrite Hload. cbn [and_then].
    rewrite Hsum. cbn [and_then]. rewrite len_floats. cbn [and_then].
    unfold truediv.
    destruct numbers as [ | v numbers]; [done | ].
    replace (Z.of_nat (length (v :: numbers)) =? 0) with false
      by (symmetry; apply Z.eqb_neq; cbn [length]; lia).
    by rewrite Hd.
  - rewrite FloatAxioms.div_spec, Htotal, Hcount. reflexivity.
Qed.

(** *** The exceptions of averaging *)

Lemma float_of_int_Raise i e : float_of_int i = Raise e → e = OverflowError.
Proof.
  unfold float_of_int. destruct (Z.abs i <? float_limit); [done | ].
  by intros [= <-].
Qed.

Lemma add_Raise total item e :
  add total item = Raise e → e = TypeError ∨ e = OverflowError.
Proof.
  destruct total as [f | a], item as [ | b | b | g | s | items | items];
    simpl; try (intros [= <-]; by left); try done.
  all: match goal with
       | |- and_then (float_of_int ?i) _ = _ → _ =>
           destruct (float_of_int i) as [d | e'] eqn:Hd; simpl;
             [done | intros [= <-]; right; by eapply float_of_int_Raise]
       end.
Qed.

Lemma sum_from_Raise items : ∀ total e,
  sum_from total items = Raise e → e = TypeError ∨ e = OverflowError.
Proof.
  induction items as [ | item items IH]; intros total e; [done | ].
  simpl. destruct (add total item) as [total' | e'] eqn:Hadd; simpl.
  - apply IH.
  - intros [= <-]. by eapply add_Raise.
Qed.

Lemma iterate_Raise v e : iterate v = Raise e → e = TypeError.
Proof. destruct v; simpl; try done; by intros [= <-]. Qed.

Lemma truediv_Raise total n e :
  n ≠ 0 → truediv total n = Raise e → e = OverflowError.
Proof.
  intros Hn. unfold truediv.
  replace (n =? 0) with false by (symmetry; by apply Z.eqb_neq).
  destruct total as [f | a].
  - destruct (float_of_int n) as [d | e'] eqn:Hd; simpl; [done | ].
    intros [= <-]. by eapply float_of_int_Raise.
  - destruct (SFdiv prec emax (operand a) (operand n)); try done.
    by intros [= <-].
Qed.

(** [average_func] on a decoded value: the division by zero is the
    failure of the values without items, and of no others. *)
Lemma average_func_Raise (json_loads : string → outcome json)
    (text : string) (v : json) :
  json_loads text = Ok v →
  (average_func json_loads text = Raise ZeroDivisionError ↔ iterate v = Ok []) ∧
  (∀ e, average_func json_loads text = Raise e →
        e = ZeroDivisionError ∨ e = TypeError ∨ e = OverflowError).
Proof.
  intros Hload. unfold average_func. rewrite Hload. cbn [and_then].
  unfold Num.sum, len.
  destruct (iterate v) as [items | e0] eqn:Hit; cbn [and_then].
  - destruct items as [ | item items].
    + split; [done | ]. intros e [= <-]. by left.
    + destruct (sum_from (PyInt 0) (item :: items)) as [total | e1] eqn:Hsum;
        cbn [and_then].
      * assert (Hn : Z.of_nat (length (item :: items)) ≠ 0)
          by (cbn [length]; lia).
        split.
        -- split; [ | done]. intros Hz.
           apply truediv_Raise in Hz; done.
        -- intros e He. apply truediv_Raise in He; auto.
      * apply sum_from_Raise in Hsum. split.
        -- split; [ | done]. intros [= ->]. by destruct Hsum.
        -- intros e [= <-]. by right.
  - apply iterate_Raise in Hit as ->. split.
    + split; done.
    + intros e [= <-]. right. by left.
Qed.

End ComponentFacts.

(** ** The components on small inputs *)

(** The test cell of both notebooks prints this list. *)
Example create_seeds_func_ten :
  create_seeds_func 10 = Ok [10; 11; 12; 13; 14; 15; 16; 17; 18; 19].
Proof. reflexivity. Qed.

Example create_seeds_func_negative : create_seeds_func (-2) = Ok [].
Proof. reflexivity. Qed.

Example rstrip_slash_trailing : Py.rstrip_slash "out//" = "out".
Proof. reflexivity. Qed.

Example rstrip_slash_inner : Py.rstrip_slash "a/b" = "a/b".
Proof. reflexivity. Qed.

(** Seed 10 draws 0.875 and 0, the point (0.75, -1), outside the circle;
    seed 11 draws 0 and 0.25, the point (-1, -0.5), outside; seed 12 draws
    0.25 and 0.875, the point (-0.5, 0.75), inside. *)
Example reusable_sample_func_counter :
  Reusable.sample_func counter_seed counter_random square_pow 10
  = Ok {| Reusable.x := 0.75; Reusable.y := -1;
          Reusable.result := 0; Reusable.seed := 10 |} ∧
  Reusable.sample_func counter_seed counter_random square_pow 11
  = Ok {| Reusable.x := -1; Reusable.y := -0.5;
          Reusable.result := 0; Reusable.seed := 11 |} ∧
  Reusable.sample_func counter_seed counter_random square_pow 12
  = Ok {| Reusable.x := -0.5; Reusable.y := 0.75;
          Reusable.result := 4; Reusable.seed := 12 |}.
Proof. repeat split; vm_compute; reflexivity. Qed.

Example lightweight_sample_func_counter :
  puts (Lightweight.sample_func counter_seed counter_random square_pow
          str_float_example 12
          (Lightweight.sample_output_location "out/" "run")
          (World ∅ ∅ [])).2
  = [("out/run/seeds/seed_12/seed.out", "12");
     ("out/run/seeds/seed_12/result.out", "4");
     ("out/run/seeds/seed_12/y.out", "0.75");
     ("out/run/seeds/seed_12/x.out", "-0.5")].
Proof. vm_compute. reflexivity. Qed.

(** A put reaches the bucket. *)
Example lightweight_sample_func_bucket :
  bucket (Lightweight.sample_func counter_seed counter_random square_pow
            str_float_example 12
            (Lightweight.sample_output_location "out/" "run")
            (World ∅ ∅ [])).2
  !! "out/run/seeds/seed_12/result.out" = Some "4".
Proof. vm_compute. reflexivity. Qed.

(** Averaging outside the lists of floats: [int]s are summed exactly and
    divided exactly, a [null] in the list is a [TypeError], and an empty
    dictionary divides zero by zero like an empty list. *)
Example average_func_ints :
  average_func json_loads_example "[4, 0, 4, 1]" = Ok 2.25%float.
Proof. vm_compute. reflexivity. Qed.

Example average_func_null :
  average_func json_loads_example "[4, null]" = Raise TypeError.
Proof. vm_compute. reflexivity. Qed.

Example average_func_empty_dict :
  average_func json_loads_example "{}" = Raise ZeroDivisionError.
Proof. vm_compute. reflexivity. Qed.

Example float_of_int_rounds :
  Num.float_of_int (2 ^ 53 + 1) = Ok 9007199254740992%float ∧
  Num.float_of_int (Num.float_limit - 1) = Ok 0x1.fffffffffffffp+1023%float ∧
  Num.float_of_int Num.float_limit = Raise OverflowError.
Proof. repeat split; vm_compute; reflexivity. Qed.

Example collect_two_results :
  (Lightweight.collect_results_as_list find_two float_of_result_text
     "out/run/seeds" Lightweight.search_pattern example_world).1
  = Ok [Some 4%float; Some 0%float].
Proof. vm_compute. reflexivity. Qed.

Example collect_missing_object :
  (Lightweight.collect_results_as_list
     (λ _ _ _, Ok ["out/run/seeds/seed_10/result.out"; "out/run/seeds/gone"])
     float_of_result_text "out/run/seeds" Lightweight.search_pattern
     example_world).1
  = Raise NoSuchKey.
Proof. vm_compute. reflexivity. Qed.

Example compile_unbalanced : Regex.compile "a(b" = None.
Proof. reflexivity. Qed.

Example search_nested_star :
  key_matches "(a*)*b" "aaab" = true ∧ key_matches "(a*)*b" "aaa" = false.
Proof. split; vm_compute; reflexivity. Qed.

(** * Properties of the components *)

Import Num RunFacts PatternFacts ComponentFacts.

(** ** Seeds *)

(** C5: for every [n > 0], [create_seeds_func n] returns, in order, exactly
    [n] pairwise distinct task identifiers, and every call with the same [n]
    returns that same sequence. *)
Theorem create_seeds_func_distinct (n : Z) :
  0 < n →
  ∃ l, create_seeds_func n = Ok l ∧
       Z.of_nat (length l) = n ∧
       NoDup l ∧
       (∀ i j a b, l !! i = Some a → l !! j = Some b → (i < j)%nat → a < b) ∧
       (∀ l', create_seeds_func n = Ok l' → l' = l).
Proof.
  intros Hn. exists (seqZ 10 n). rewrite create_seeds_func_seqZ.
  split; [done | ]. split; [rewrite length_seqZ; lia | ].
  split; [apply NoDup_seqZ | ]. split.
  - intros i j a b Hi Hj Hij.
    apply lookup_seqZ in Hi as [-> _]. apply lookup_seqZ in Hj as [-> _]. lia.
  - by intros l' [= <-].
Qed.

Lemma create_seeds_func_distinct_witness :
  0 < 4 ∧
  ∃ l, create_seeds_func 4 = Ok l ∧
       Z.of_nat (length l) = 4 ∧
       NoDup l ∧
       (∀ i j a b, l !! i = Some a → l !! j = Some b → (i < j)%nat → a < b) ∧
       (∀ l', create_seeds_func 4 = Ok l' → l' = l).
Proof. split; [lia | apply (create_seeds_func_distinct 4); lia]. Defined.

(** C10: [create_seeds_func n] is the sequence of [n] consecutive integers
    starting at the constant 10; so for [n ≤ m] the seeds of [n] are a
    prefix of the seeds of [m]: every identifier of the smaller run occurs
    again in the larger one, while inside one run no identifier repeats. *)
Theorem create_seeds_func_consecutive (n m : Z) :
  n ≤ m →
  create_seeds_func n = Ok (seqZ 10 n) ∧
  length (seeds_of (create_seeds_func n)) = Z.to_nat n ∧
  (∀ i : nat, Z.of_nat i < n →
     seeds_of (create_seeds_func n) !! i = Some (10 + Z.of_nat i)) ∧
  seeds_of (create_seeds_func n) `prefix_of` seeds_of (create_seeds_func m) ∧
  (∀ id, id ∈ seeds_of (create_seeds_func n) →
         id ∈ seeds_of (create_seeds_func m)) ∧
  NoDup (seeds_of (create_seeds_func n)).
Proof.
  intros Hnm. split; [apply create_seeds_func_seqZ | ].
  split; [apply seeds_length | ]. split; [apply seeds_lookup | ].
  split; [by apply seeds_prefix | ]. split; [ | apply seeds_NoDup].
  intros id Hid. destruct (seeds_prefix n m Hnm) as [k ->].
  apply elem_of_app. by left.
Qed.

Lemma create_seeds_func_consecutive_witness :
  3 ≤ 5 ∧
  create_seeds_func 3 = Ok (seqZ 10 3) ∧
  length (seeds_of (create_seeds_func 3)) = Z.to_nat 3 ∧
  (∀ i : nat, Z.of_nat i < 3 →
     seeds_of (create_seeds_func 3) !! i = Some (10 + Z.of_nat i)) ∧
  seeds_of (create_seeds_func 3) `prefix_of` seeds_of (create_seeds_func 5) ∧
  (∀ id, id ∈ seeds_of (create_seeds_func 3) →
         id ∈ seeds_of (create_seeds_func 5)) ∧
  NoDup (seeds_of (create_seeds_func 3)).
Proof. split; [lia | apply (create_seeds_func_consecutive 3 5); lia]. Defined.

(** C2, as the code has it: [create_seeds_func] has no check on its
    argument; for every [n ≤ 0] it returns the empty list and raises
    nothing. *)
Theorem create_seeds_func_nonpositive (n : Z) :
  n ≤ 0 →
  create_seeds_func n = Ok [] ∧ ¬ is_Raise (create_seeds_func n).
Proof.
  intros Hn. rewrite (create_seeds_func_nonpos n Hn).
  split; [done | ]. apply is_Ok_not_Raise. by eexists.
Qed.

Lemma create_seeds_func_nonpositive_witness :
  -3 ≤ 0 ∧
  create_seeds_func (-3) = Ok [] ∧ ¬ is_Raise (create_seeds_func (-3)).
Proof. split; [lia | apply (create_seeds_func_nonpositive (-3)); lia]. Defined.

(** C2 fails at [n = 0]: the call returns the empty list, it does not fail
    with [InvalidArgument]. *)
Lemma create_seeds_func_zero_returns :
  0 ≤ 0 ∧
  create_seeds_func 0 = Ok [] ∧
  create_seeds_func 0 ≠ Raise InvalidArgument.
Proof. split; [lia | ]. split; [reflexivity | discriminate]. Qed.

(** ** Averaging *)

(** C6: for every text that decodes to a non-empty list of floats,
    [average_func] returns the arithmetic mean of the list, the sum of the
    values divided by their count, in binary64 arithmetic; for the list
    [[4; 0; 4; 0]] that is [2.0].  The bound on the length is the one every
    Python list meets. *)
Theorem average_func_mean
    (json_loads : string → outcome json)
    (text : string) (numbers : list float) :
  json_loads text = Ok (JList (JFloat <$> numbers)) →
  numbers ≠ [] →
  Z.of_nat (length numbers) < 2 ^ 63 →
  ∃ mean,
    average_func json_loads text = Ok mean ∧
    Prim2SF mean = arithmetic_mean numbers ∧
    (numbers = [4; 0; 4; 0]%float → mean = 2%float).
Proof.
  intros Hload Hne Hlen.
  destruct (average_func_floats json_loads text numbers Hload Hne Hlen)
    as (mean & Hrun & Hmean).
  exists mean. split; [exact Hrun | ]. split; [exact Hmean | ].
  intros ->. apply Prim2SF_inj. rewrite Hmean. vm_compute. reflexivity.
Qed.

Lemma average_func_mean_witness :
  json_loads_example "[4.0, 0.0, 4.0, 0.0]"
  = Ok (JList (JFloat <$> [4; 0; 4; 0]%float)) ∧
  [4; 0; 4; 0]%float ≠ [] ∧
  Z.of_nat (length [4; 0; 4; 0]%float) < 2 ^ 63 ∧
  ∃ mean,
    average_func json_loads_example "[4.0, 0.0, 4.0, 0.0]" = Ok mean ∧
    Prim2SF mean = arithmetic_mean [4; 0; 4; 0]%float ∧
    mean = 2%float.
Proof.
  split; [reflexivity | ]. split; [discriminate | ]. split; [reflexivity | ].
  destruct (average_func_mean json_loads_example "[4.0, 0.0, 4.0, 0.0]"
              [4; 0; 4; 0]%float eq_refl) as (mean & Hrun & Hmean & Htwo);
    [discriminate | reflexivity | ].
  exists mean. split; [exact Hrun | ]. split; [exact Hmean | exact (Htwo eq_refl)].
Defined.

(** C3, as the code has it: on the text of the empty list [average_func]
    fails with Python's [ZeroDivisionError]: the sum is the [int] zero, the
    length is zero, and it is the division that raises.  The error is not
    [EmptyInput]. *)
Theorem average_func_empty
    (json_loads : string → outcome json) (text : string) :
  json_loads text = Ok (JList []) →
  Num.sum (JList []) = Ok (PyInt 0) ∧
  Num.len (JList []) = Ok 0 ∧
  Num.truediv (PyInt 0) 0 = Raise ZeroDivisionError ∧
  average_func json_loads text = Raise ZeroDivisionError ∧
  average_func json_loads text ≠ Raise EmptyInput.
Proof.
  intros Hload.
  assert (Hrun : average_func json_loads text = Raise ZeroDivisionError).
  { unfold average_func. rewrite Hload. reflexivity. }
  split; [reflexivity | ]. split; [reflexivity | ]. split; [reflexivity | ].
  split; [exact Hrun | ]. rewrite Hrun. discriminate.
Qed.

Lemma average_func_empty_witness :
  json_loads_example "[]" = Ok (JList []) ∧
  average_func json_loads_example "[]" = Raise ZeroDivisionError.
Proof.
  split; [reflexivity | ].
  exact (proj1 (proj2 (proj2 (proj2
           (average_func_empty json_loads_example "[]" eq_refl))))).
Defined.

(** C3 fails on the empty list: the error raised is not [EmptyInput]. *)
Lemma average_func_empty_not_EmptyInput :
  json_loads_example "[]" = Ok (JList []) ∧
  average_func json_loads_example "[]" = Raise ZeroDivisionError ∧
  average_func json_loads_example "[]" ≠ Raise EmptyInput.
Proof. split; [reflexivity | ]. split; [reflexivity | discriminate]. Qed.

(** ** Sampling *)

(** C7: for every seed, generator and [pow], the [result] of [sample_func]
    is 4 when [x ** 2 + y ** 2 <= 1] holds for the point it drew and 0
    otherwise, and never anything else; in the reusable notebook it is the
    [result] field of the tuple, in the lightweight one the [result] entry
    of [to_output]. *)
Theorem sample_hit_four_or_zero (rng : Type)
    (random_seed : Z → rng) (random_random : rng → float * rng)
    (pow : float → float → float) (seed : Z) :
  ∃ x y,
    x = ((random_random (random_seed seed)).1 * 2 - 1)%float ∧
    y = ((random_random (random_random (random_seed seed)).2).1 * 2 - 1)%float ∧
    let r := if (pow x 2 + pow y 2 <=? 1)%float then 4 else 0 in
    Reusable.sample_func random_seed random_random pow seed =
      Ok {| Reusable.x := x; Reusable.y := y;
            Reusable.result := r; Reusable.seed := seed |} ∧
    Lightweight.to_output random_seed random_random pow seed =
      [("x", PyFloat x); ("y", PyFloat y); ("result", PyInt r);
       ("seed", PyInt seed)] ∧
    (r = 4 ∨ r = 0).
Proof.
  destruct (reusable_sample_func_run random_seed random_random pow seed)
    as (x & y & Hx & Hy & Hr).
  destruct (to_output_entries random_seed random_random pow seed)
    as (x' & y' & Hx' & Hy' & Hl).
  subst x' y'. rewrite <- Hx, <- Hy in Hl.
  exists x, y. split; [done | ]. split; [done | ]. simpl.
  split; [exact Hr | ]. split; [exact Hl | ]. apply (hit_values pow x y).
Qed.

(** ** Storage keys *)



(** The destination of [copy_sample] in the reusable notebook, at seed 10:
    no slash between [seeds] and the seed. *)
Example reusable_copy_sample_destination :
  Reusable.copy_sample_destination "out" "run" 10 = "out/run/seeds10/result.out".
Proof. reflexivity. Qed.

(** ** Search patterns *)

(** C4, as the code has it: read as a regular expression that may match
    anywhere in the key, the lightweight pattern matches exactly the keys in
    which some path segment starts with [result], one character and [out];
    the reusable pattern matches exactly the keys in which that text follows
    a slash.  So both match [a/b/result.out] and neither matches
    [not_a_result.out]; the lightweight pattern matches a bare [result.out],
    the reusable one does not. *)
Theorem search_patterns_match :
  (∀ key, key_matches Lightweight.search_pattern key = true ↔
          ∃ hit, result_any_out hit ∧ starts_segment key hit) ∧
  (∀ key, key_matches Reusable.search_pattern key = true ↔
          ∃ hit, result_any_out hit ∧ follows_slash key hit) ∧
  key_matches Lightweight.search_pattern "a/b/result.out" = true ∧
  key_matches Lightweight.search_pattern "result.out" = true ∧
  key_matches Lightweight.search_pattern "not_a_result.out" = false ∧
  key_matches Reusable.search_pattern "a/b/result.out" = true ∧
  key_matches Reusable.search_pattern "result.out" = false ∧
  key_matches Reusable.search_pattern "not_a_result.out" = false.
Proof.
  split; [exact key_matches_lightweight | ].
  split; [exact key_matches_reusable | ].
  repeat split; vm_compute; reflexivity.
Qed.

(** C4 fails in two places: the reusable pattern does not match a bare
    [result.out], and both patterns match a key whose last segment only
    ends in [result.out]. *)
Lemma search_patterns_beyond_claim :
  key_matches Reusable.search_pattern "result.out" = false ∧
  key_matches Lightweight.search_pattern "result.out/not_a_result.out" = true ∧
  key_matches Lightweight.search_pattern "result_out_not_a_result.out" = true ∧
  key_matches Reusable.search_pattern "a/result.out/not_a_result.out" = true.
Proof. repeat split; vm_compute; reflexivity. Qed.

(** ** Collecting results *)

(** C9: when the finder lists [names] and every listed object holds a
    float, [collect_results_as_list] returns; and whenever it returns, the
    list has one entry per listed name, in the order of the listing: its
    length is the number of names and its [i]-th entry is the float parsed
    from the [i]-th object. *)
Theorem collect_results_in_order
    (find : gmap string string → string → string → outcome (list string))
    (float_of_text : string → option float)
    (search_location search_pattern : string) (w : world) (names : list string) :
  find (bucket w) search_pattern search_location = Ok names →
  ((∀ name, name ∈ names → ∃ v, holds_float float_of_text (bucket w) name v) →
   is_Ok (Lightweight.collect_results_as_list find float_of_text
            search_location search_pattern w).1) ∧
  (∀ r, (Lightweight.collect_results_as_list find float_of_text
           search_location search_pattern w).1 = Ok r →
        length r = length names ∧
        ∀ i name, names !! i = Some name →
          ∃ v, holds_float float_of_text (bucket w) name v ∧
               r !! i = Some (Some v)).
Proof.
  intros Hfind. rewrite collect_results_as_list_run, Hfind. split.
  - intros Hall.
    destruct (gather_all float_of_text (bucket w) names) as [vs | e] eqn:Hg;
      [by eexists | ].
    apply gather_all_Raise in Hg as (i & name & Hi & He & _).
    destruct (Hall name) as [v Hv]; [by eapply list_elem_of_lookup_2 | ].
    apply fetch_parse_Ok in Hv. congruence.
  - intros r Hr.
    destruct (gather_all float_of_text (bucket w) names) as [vs | e] eqn:Hg;
      [ | done].
    injection Hr as <-. apply gather_all_Ok in Hg.
    split; [rewrite length_fmap; symmetry; by eapply Forall2_length | ].
    intros i name Hi.
    destruct (Forall2_lookup_l _ _ _ _ _ Hg Hi) as (v & Hv & Hfp).
    exists v. split; [by apply fetch_parse_Ok | ].
    by rewrite list_lookup_fmap, Hv.
Qed.

Lemma collect_results_in_order_witness :
  find_two (bucket example_world) "pattern" "out/run/seeds"
  = Ok ["out/run/seeds/seed_10/result.out"; "out/run/seeds/seed_11/result.out"] ∧
  (∀ name,
     name ∈ ["out/run/seeds/seed_10/result.out"; "out/run/seeds/seed_11/result.out"] →
     ∃ v, holds_float float_of_result_text (bucket example_world) name v) ∧
  is_Ok (Lightweight.collect_results_as_list find_two float_of_result_text
           "out/run/seeds" "pattern" example_world).1 ∧
  (∀ r, (Lightweight.collect_results_as_list find_two float_of_result_text
           "out/run/seeds" "pattern" example_world).1 = Ok r →
        length r = 2%nat).
Proof.
  split; [reflexivity | ].
  assert (Hall : ∀ name,
    name ∈ ["out/run/seeds/seed_10/result.out"; "out/run/seeds/seed_11/result.out"] →
    ∃ v, holds_float float_of_result_text (bucket example_world) name v).
  { intros name Hin.
    apply elem_of_cons in Hin as [-> | Hin];
      [exists 4%float, "4"; split; reflexivity | ].
    apply elem_of_cons in Hin as [-> | Hin];
      [exists 0%float, "0"; split; reflexivity | ].
    by apply elem_of_nil in Hin. }
  split; [exact Hall | ].
  pose proof (collect_results_in_order find_two float_of_result_text
                "out/run/seeds" "pattern" example_world _ eq_refl) as [H1 H2].
  split; [exact (H1 Hall) | ].
  intros r Hr. exact (proj1 (H2 r Hr)).
Defined.




(** * Further properties *)

(** ** Texts of keys *)

Module KeyFacts.

Import Num RunFacts PatternFacts ComponentFacts.

Lemma chars_app (a b : string) : chars (a +:+ b) = chars a ++ chars b.
Proof. apply list_ascii_of_string_app. Qed.

Lemma chars_inj (a b : string) : chars a = chars b → a = b.
Proof.
  intros H. apply (f_equal String.string_of_list_ascii) in H.
  by rewrite !String.string_of_list_ascii_of_string in H.
Qed.

(** *** The text of an integer *)

Lemma pretty_N_char_digit x : digit_or_dash (pretty_N_char x).
Proof.
  unfold digit_or_dash, pretty_N_char.
  repeat case_match; set_solver.
Qed.

Lemma pretty_N_go_chars x : ∀ s,
  Forall digit_or_dash (chars s) → Forall digit_or_dash (chars (pretty_N_go x s)).
Proof.
  induction (N.lt_wf_0 x) as [x _ IH]; intros s Hs.
  destruct (decide (x = 0)%N) as [-> | Hx]; [by rewrite pretty_N_go_0 | ].
  rewrite pretty_N_go_step by lia.
  apply IH; [apply N.div_lt; lia | ].
  simpl. constructor; [apply pretty_N_char_digit | done].
Qed.

Lemma pretty_N_chars (x : N) : Forall digit_or_dash (chars (pretty x)).
Proof.
  unfold pretty, pretty_N. case_decide.
  - by repeat constructor.
  - apply pretty_N_go_chars. constructor.
Qed.

Lemma pretty_Z_chars (z : Z) : Forall digit_or_dash (chars (pretty z)).
Proof.
  destruct z as [ | p | p]; unfold pretty, pretty_Z.
  - by repeat constructor.
  - apply (pretty_N_chars (N.pos p)).
  - change (chars ("-" +:+ pretty p)) with ("-"%char :: chars (pretty (N.pos p))).
    constructor; [unfold digit_or_dash; set_solver | apply pretty_N_chars].
Qed.

Lemma str_int_slash_free (z : Z) : slash_free (Py.str_int z).
Proof.
  unfold slash_free, Py.str_int. intros Hin.
  pose proof (pretty_Z_chars z) as Hall.
  rewrite Forall_forall in Hall. specialize (Hall _ Hin).
  unfold digit_or_dash in Hall.
  repeat (apply elem_of_cons in Hall as [Hall | Hall]; [discriminate | ]).
  by apply elem_of_nil in Hall.
Qed.

(** *** Keys of one run and of two runs *)

(** Two texts that agree after a slash-free head and a slash have the
    same head and the same rest. *)
Lemma slash_split (a b x y : string) :
  slash_free a → slash_free b →
  a +:+ "/" +:+ x = b +:+ "/" +:+ y → a = b ∧ x = y.
Proof.
  unfold slash_free. fold chars. intros Ha Hb H.
  apply (f_equal chars) in H. rewrite !chars_app in H.
  change (chars "/") with ["/"%char] in H. simpl in H.
  apply not_elem_of_app_cons_inv_l in H as (H1 & _ & H2); [ | done..].
  split; by apply chars_inj.
Qed.

Lemma lightweight_destination_inj path seed seed' t t' :
  Lightweight.destination path seed t = Lightweight.destination path seed' t' →
  seed = seed' ∧ t = t'.
Proof.
  unfold Lightweight.destination. intros H.
  do 2 apply String.app_inj in H.
  apply slash_split in H as [H1 H2]; [ | apply str_int_slash_free..].
  split; [ | done]. by apply pretty_Z_inj in H1.
Qed.

Lemma reusable_copy_sample_destination_inj ol rid :
  Inj (=) (=) (Reusable.copy_sample_destination ol rid).
Proof.
  intros seed seed' H. unfold Reusable.copy_sample_destination in H.
  apply String.app_inj in H. apply append_inj_l in H.
  by apply pretty_Z_inj in H.
Qed.

Lemma reusable_sample_not_average ol rid seed :
  Reusable.copy_sample_destination ol rid seed
  ≠ Reusable.copy_average_destination ol rid.
Proof.
  unfold Reusable.copy_sample_destination, Reusable.copy_average_destination,
    Reusable.sample_output_location.
  rewrite append_assoc. intros H. apply String.app_inj in H.
  apply (f_equal chars) in H. rewrite chars_app in H. simpl in H.
  discriminate.
Qed.

(** Every key of a run starts with the run location and a slash; with
    slash-free run identifiers, such a key tells the run. *)
Lemma run_location_inj ol rid rid' x x' :
  slash_free rid → slash_free rid' →
  Lightweight.this_run_output_location ol rid +:+ "/" +:+ x
  = Lightweight.this_run_output_location ol rid' +:+ "/" +:+ x' →
  rid = rid'.
Proof.
  unfold Lightweight.this_run_output_location. intros Hr Hr' H.
  rewrite !append_assoc in H. do 2 apply String.app_inj in H.
  by apply slash_split in H as [H _].
Qed.

Lemma lightweight_destination_run ol rid seed t :
  Lightweight.destination (Lightweight.sample_output_location ol rid) seed t
  = Lightweight.this_run_output_location ol rid +:+ "/"
    +:+ ("seeds/seed_" +:+ Py.str_int seed +:+ "/" +:+ t).
Proof.
  unfold Lightweight.destination, Lightweight.sample_output_location.
  rewrite rstrip_slash_seeds. by rewrite !append_assoc.
Qed.

Lemma reusable_copy_sample_run ol rid seed :
  Reusable.copy_sample_destination ol rid seed
  = Lightweight.this_run_output_location ol rid +:+ "/"
    +:+ ("seeds" +:+ Py.str_int seed +:+ "/result.out").
Proof.
  unfold Reusable.copy_sample_destination, Reusable.sample_output_location.
  by rewrite !append_assoc.
Qed.

Lemma reusable_copy_average_run ol rid :
  Reusable.copy_average_destination ol rid
  = Lightweight.this_run_output_location ol rid +:+ "/" +:+ "result.out".
Proof.
  reflexivity.
Qed.

End KeyFacts.

(** ** Stages of a run *)

Module StageFacts.

Import Num RunFacts PatternFacts ComponentFacts KeyFacts.

Lemma in_container_run {A} (m : M A) w r w' :
  m (World ∅ (bucket w) (puts w)) = (r, w') →
  LightweightRun.in_container m w = (r, World (files w) (bucket w') (puts w')).
Proof. unfold LightweightRun.in_container. by intros ->. Qed.

(** *** The bucket after puts *)

Lemma after_puts_app ps qs b :
  after_puts (ps ++ qs) b = after_puts ps (after_puts qs b).
Proof. unfold after_puts. by rewrite foldr_app. Qed.

Lemma after_puts_other ps b d :
  d ∉ ps.*1 → after_puts ps b !! d = b !! d.
Proof.
  induction ps as [ | [d' c'] ps IH]; intros Hd; [done | ].
  simpl in *. apply not_elem_of_cons in Hd as [Hne Hd].
  rewrite lookup_insert_ne by done. by apply IH.
Qed.

Lemma after_puts_put ps b d c :
  NoDup ps.*1 → (d, c) ∈ ps → after_puts ps b !! d = Some c.
Proof.
  induction ps as [ | [d' c'] ps IH]; intros Hnd Hin.
  - by apply elem_of_nil in Hin.
  - simpl in *. apply NoDup_cons in Hnd as [Hd' Hnd].
    apply elem_of_cons in Hin as [[= -> ->] | Hin].
    + apply lookup_insert_eq.
    + rewrite lookup_insert_ne; [by apply IH | ].
      intros ->. apply Hd'. apply list_elem_of_fmap. by exists (d, c).
Qed.

Section sample.

Context {rng : Type}.
Variable random_seed : Z → rng.
Variable random_random : rng → float * rng.
Variable pow : float → float → float.
Variable str_float : float → string.
Variable output_location : string.
Variable run_id : string.

Local Abbreviation path :=
  (Lightweight.sample_output_location output_location run_id).
Local Abbreviation puts_of :=
  (puts_of_sample random_seed random_random pow str_float path).

(** The destinations of one sample task: its four files, under its own
    seed. *)
Lemma puts_of_sample_destinations seed :
  (puts_of seed).*1 =
    (λ t, Lightweight.destination path seed t)
      <$> ["seed.out"; "result.out"; "y.out"; "x.out"].
Proof.
  unfold puts_of_sample.
  destruct (to_output_entries random_seed random_random pow seed)
    as (x & y & _ & _ & ->).
  reflexivity.
Qed.

Lemma puts_of_sample_length seed : length (puts_of seed) = 4%nat.
Proof.
  rewrite <- (length_fmap fst), puts_of_sample_destinations. done.
Qed.

Lemma puts_of_sample_NoDup seed : NoDup (puts_of seed).*1.
Proof.
  rewrite puts_of_sample_destinations. apply NoDup_fmap_2.
  - intros t t' H. by apply lightweight_destination_inj in H as [_ ?].
  - repeat (apply NoDup_cons; split;
              [intros H;
               repeat (apply elem_of_cons in H as [H | H]; [discriminate | ]);
               by apply elem_of_nil in H | ]).
    apply NoDup_nil_2.
Qed.

Lemma puts_of_sample_seed seed d :
  d ∈ (puts_of seed).*1 → ∃ t, d = Lightweight.destination path seed t.
Proof.
  rewrite puts_of_sample_destinations. intros H.
  apply list_elem_of_fmap in H as (t & -> & _). eauto.
Qed.

Lemma puts_of_sample_result seed :
  ("result", PyInt (result_of random_seed random_random pow seed))
    ∈ Lightweight.to_output random_seed random_random pow seed ∧
  (seed_result_key (Py.rstrip_slash output_location) run_id seed,
   Py.str_int (result_of random_seed random_random pow seed))
    ∈ puts_of seed.
Proof.
  unfold puts_of_sample, result_of.
  destruct (to_output_entries random_seed random_random pow seed)
    as (x & y & -> & -> & ->).
  split; [repeat constructor | ].
  rewrite <- seed_result_key_destination. simpl.
  apply list_elem_of_further, list_elem_of_here.
Qed.

Lemma sample_task_run seed w :
  LightweightRun.in_container
    (Lightweight.sample_func random_seed random_random pow str_float seed path)
    w
  = (Ok path,
     World (files w) (after_puts (puts_of seed) (bucket w))
       (puts_of seed ++ puts w)).
Proof.
  destruct (sample_func_run random_seed random_random pow str_float seed path
              (World ∅ (bucket w) (puts w))) as (fs & Hrun).
  by rewrite (in_container_run _ _ _ _ Hrun).
Qed.

(** The puts of the tasks of [order], latest first, and the bucket they
    leave. *)
Lemma sample_ops_run order : ∀ w,
  LightweightRun.sample_ops random_seed random_random pow str_float
    output_location run_id order w
  = (Ok (),
     World (files w) (after_puts (rev order ≫= puts_of) (bucket w))
       ((rev order ≫= puts_of) ++ puts w)).
Proof.
  unfold LightweightRun.sample_ops.
  induction order as [ | seed order IH]; intros w; simpl.
  - by destruct w.
  - unfold bind at 1. unfold bind at 1. rewrite sample_task_run.
    unfold ret at 1. rewrite IH. simpl.
    rewrite bind_app. simpl.
    rewrite app_nil_r, after_puts_app, <- app_assoc. done.
Qed.

Lemma puts_of_order_length order :
  length (order ≫= puts_of) = (4 * length order)%nat.
Proof.
  induction order as [ | seed order IH]; [done | ].
  rewrite bind_cons, length_app, puts_of_sample_length, IH.
  cbn [length]. lia.
Qed.

Lemma puts_of_order_NoDup order :
  NoDup order → NoDup (order ≫= puts_of).*1.
Proof.
  induction order as [ | seed order IH]; intros Hnd.
  - apply NoDup_nil_2.
  - apply NoDup_cons in Hnd as [Hseed Hnd].
    rewrite bind_cons, fmap_app. apply NoDup_app.
    split; [apply puts_of_sample_NoDup | ]. split; [ | by apply IH].
    intros d Hd Hd'.
    apply puts_of_sample_seed in Hd as (t & ->).
    apply list_elem_of_fmap in Hd' as ([d' c] & Heq & Hin).
    apply list_elem_of_bind in Hin as (seed' & Hin & Hseed').
    assert (Hd' : d' ∈ (puts_of seed').*1).
    { apply list_elem_of_fmap. by exists (d', c). }
    apply puts_of_sample_seed in Hd' as (t' & ->). simpl in Heq.
    apply lightweight_destination_inj in Heq as [-> _]. done.
Qed.

End sample.

(** *** Collecting, with the files it leaves *)

Lemma temp_name_inj (i j : nat) :
  "./unique_temp_" +:+ pretty i = "./unique_temp_" +:+ pretty j → i = j.
Proof. intros H. apply String.app_inj in H. by apply pretty_nat_inj in H. Qed.

Section collect.

Variable find : gmap string string → string → string → outcome (list string).
Variable float_of_text : string → option float.

Local Abbreviation fetch_into := (Lightweight.fetch_into float_of_text).
Local Abbreviation fetch_parse := (fetch_parse float_of_text).
Local Abbreviation gather_all := (gather_all float_of_text).

Lemma fetch_into_step i name acc w v :
  fetch_parse (bucket w) name = Ok v →
  ∃ text, bucket w !! name = Some text ∧
    fetch_into (i, name) acc w =
      (Ok (<[i := Some v]> acc),
       World (<["./unique_temp_" +:+ pretty i := text]> (files w))
         (bucket w) (puts w)).
Proof.
  unfold fetch_parse.
  unfold Lightweight.fetch_into, bind, Io.fget_object.
  destruct (bucket w !! name) as [text | ] eqn:Hb; [ | done].
  destruct (float_of_text text) as [v' | ] eqn:Hf; [ | done].
  intros [= <-]. exists text. split; [done | ].
  unfold Io.read_file. simpl. rewrite lookup_insert_eq.
  unfold Lightweight.py_float. rewrite Hf. done.
Qed.

Lemma loop_files names : ∀ vs k acc w,
  Forall2 (λ name v, fetch_parse (bucket w) name = Ok v) names vs →
  ∃ fs,
    for_in (zip (seq k (length names)) names) acc fetch_into w =
      ((for_in (zip (seq k (length names)) names) acc fetch_into w).1,
       World fs (bucket w) (puts w)) ∧
    (∀ i name, names !! i = Some name →
       fs !! ("./unique_temp_" +:+ pretty (k + i)%nat) = bucket w !! name) ∧
    (∀ path,
       (∀ i, (i < length names)%nat →
             path ≠ "./unique_temp_" +:+ pretty (k + i)%nat) →
       fs !! path = files w !! path).
Proof.
  induction names as [ | name names IH]; intros vs k acc w Hall.
  - exists (files w). simpl. unfold ret. split; [by destruct w | ].
    split; [done | done].
  - inversion Hall as [ | ? v ? vs' Hv Hvs ]; subst.
    destruct (fetch_into_step k name acc w v Hv) as (text & Hb & Hstep).
    set (w1 := World (<["./unique_temp_" +:+ pretty k := text]> (files w))
                 (bucket w) (puts w)) in *.
    destruct (IH vs' (S k) (<[k := Some v]> acc) w1 Hvs)
      as (fs & Hrest & Hcopies & Hothers).
    exists fs. simpl. rewrite (bind_Ok _ _ _ _ _ Hstep).
    split; [ | split].
    + rewrite Hrest at 1. done.
    + intros [ | i] name' Hi; simpl in Hi.
      * injection Hi as <-. rewrite Nat.add_0_r, Hothers.
        -- simpl. by rewrite lookup_insert_eq.
        -- intros i _ Heq. apply temp_name_inj in Heq. lia.
      * replace (k + S i)%nat with (S k + i)%nat by lia.
        by apply Hcopies.
    + intros path Hpath. rewrite Hothers.
      * simpl. rewrite lookup_insert_ne; [done | ].
        intros Heq. apply (Hpath 0%nat); [simpl; lia | ].
        by rewrite Nat.add_0_r.
      * intros i Hi. replace (S k + i)%nat with (k + S i)%nat by lia.
        apply Hpath. simpl. lia.
Qed.

Lemma collect_world loc pat w names :
  find (bucket w) pat loc = Ok names →
  is_Ok (Lightweight.collect_results_as_list find float_of_text loc pat w).1 →
  ∃ fs,
    (Lightweight.collect_results_as_list find float_of_text loc pat w).2
    = World fs (bucket w) (puts w) ∧
    (∀ (i : nat) name, names !! i = Some name →
       fs !! ("./unique_temp_" +:+ pretty i) = bucket w !! name) ∧
    (∀ path,
       (∀ i : nat, (i < length names)%nat →
                   path ≠ "./unique_temp_" +:+ pretty i) →
       fs !! path = files w !! path).
Proof.
  intros Hfind HOk.
  rewrite collect_results_as_list_run, Hfind in HOk.
  destruct (gather_all (bucket w) names) as [vs | e] eqn:Hg;
    [ | by destruct HOk].
  apply gather_all_Ok in Hg.
  destruct (loop_files names vs 0 (replicate (length names) None) w Hg)
    as (fs & Hloop & Hcopies & Hothers).
  exists fs. split; [ | by split].
  unfold Lightweight.collect_results_as_list, bind at 1, lift.
  rewrite Hfind. unfold Py.enumerate, bind. rewrite Hloop.
  by destruct (for_in _ _ _ _).1.
Qed.

Lemma collect_Ok_bucket loc pat w names :
  find (bucket w) pat loc = Ok names →
  is_Ok (Lightweight.collect_results_as_list find float_of_text loc pat w).1 →
  ∀ (i : nat) name, names !! i = Some name →
    ∃ text v, bucket w !! name = Some text ∧ float_of_text text = Some v.
Proof.
  intros Hfind HOk i name Hi.
  rewrite collect_results_as_list_run, Hfind in HOk.
  destruct (gather_all (bucket w) names) as [vs | e] eqn:Hg;
    [ | by destruct HOk].
  apply gather_all_Ok in Hg.
  destruct (Forall2_lookup_l _ _ _ _ _ Hg Hi) as (v & _ & Hfp).
  apply fetch_parse_Ok in Hfp as (text & Hb & Hf). eauto.
Qed.

End collect.

(** *** Collection followed by averaging *)

Lemma collect_and_average_run
    (find : gmap string string → string → string → outcome (list string))
    (float_of_text : string → option float)
    (serialize : list (option float) → string)
    (json_loads : string → outcome json)
    (output_location run_id : string) (w : world)
    (names : list string) (vs : list float) :
  find (bucket w) Lightweight.search_pattern
    (Lightweight.sample_output_location output_location run_id) = Ok names →
  Forall2 (holds_float float_of_text (bucket w)) names vs →
  (LightweightRun.collect_and_average find float_of_text serialize json_loads
     output_location run_id w).1
  = average_func json_loads (serialize (Some <$> vs)).
Proof.
  intros Hfind Hall.
  assert (Hcollect :
    (Lightweight.collect_results_as_list find float_of_text
       (Lightweight.sample_output_location output_location run_id)
       Lightweight.search_pattern (World ∅ (bucket w) (puts w))).1
    = Ok (Some <$> vs)).
  { rewrite collect_results_as_list_run. simpl. rewrite Hfind.
    assert (Hg : gather_all float_of_text (bucket w) names = Ok vs).
    { apply gather_all_Ok. eapply Forall2_impl; [exact Hall | ].
      intros name v Hv. by apply fetch_parse_Ok. }
    by rewrite Hg. }
  unfold LightweightRun.collect_and_average, bind,
    LightweightRun.in_container, lift.
  destruct (Lightweight.collect_results_as_list _ _ _ _ _) as [r w'].
  simpl in Hcollect. subst r. done.
Qed.

End StageFacts.

(** ** What the search pattern selects among the files of a sample *)

Module SelectionFacts.

Import Regex RegexFacts PatternFacts ComponentFacts KeyFacts.

Lemma key_matches_segment_hit key :
  key_matches Lightweight.search_pattern key = true ↔ segment_hit (chars key).
Proof.
  unfold key_matches. rewrite compile_lightweight.
  apply search_anywhere_in_segment.
Qed.

Lemma fits_result_out_chars cs :
  Forall2 fits result_out cs →
  ∃ c, cs = ["r"; "e"; "s"; "u"; "l"; "t"; c; "o"; "u"; "t"]%char.
Proof.
  unfold result_out. intros H.
  repeat match goal with
         | H : Forall2 _ (_ :: _) _ |- _ => inversion H; clear H; subst
         | H : Forall2 _ [] _ |- _ => inversion H; clear H; subst
         end.
  simpl in *. subst. eauto.
Qed.

(** A slash inside the hit can only be its seventh character. *)
Lemma hit_across_slash cs k k2 :
  Forall2 fits result_out cs → cs = k ++ "/"%char :: k2 →
  k2 = ["o"; "u"; "t"]%char.
Proof.
  intros Hcs Heq. apply fits_result_out_chars in Hcs as (c & ->).
  do 10 (destruct k as [ | ? k]; [try by simplify_eq/= | simplify_eq/=]).
  by destruct k.
Qed.

(** A text with one slash splits at it in one way. *)
Lemma one_slash_split (l1 l2 k1 k2 : list ascii) :
  "/"%char ∉ l1 → "/"%char ∉ l2 →
  l1 ++ "/"%char :: l2 = k1 ++ "/"%char :: k2 → l1 = k1 ∧ l2 = k2.
Proof.
  intros H1 H2 Heq. apply app_inj_pivot in Heq as [[[H _] | [H _]] | ?].
  - by apply list_elem_of_In in H.
  - by apply list_elem_of_In in H.
  - done.
Qed.

(** A hit in a text that continues with [/s] lies in the text before, or
    starts after a slash of the continuation. *)
Lemma segment_hit_app (P S' : list ascii) :
  segment_hit (P ++ "/"%char :: "s"%char :: S') →
  segment_hit P ∨
  ∃ k0 cs post, Forall2 fits result_out cs ∧
                "/"%char :: "s"%char :: S' = k0 ++ "/"%char :: cs ++ post.
Proof.
  set (S := "/"%char :: "s"%char :: S').
  assert (Hinside : ∀ pre' cs post,
    Forall2 fits result_out cs → P ++ S = pre' ++ cs ++ post →
    (∃ k, P = pre' ++ cs ++ k) ∨ (∃ k, pre' = P ++ k ∧ S = k ++ cs ++ post)).
  { intros pre' cs post Hcs Heq.
    apply app_eq_inv in Heq as [(k & HP & Hk) | (k & Hpre & HS)]; [ | eauto].
    apply app_eq_inv in Hk as [(k2 & Hk & HS) | (k2 & Hk & Hpost)].
    - destruct k2 as [ | a k2].
      + left. exists []. rewrite app_nil_r in Hk. by rewrite HP, Hk, app_nil_r.
      + exfalso. unfold S in HS. injection HS as <- HS.
        pose proof (hit_across_slash _ _ _ Hcs Hk) as ->. discriminate.
    - left. exists k2. by rewrite HP, Hk. }
  intros [(cs & post & Hcs & Heq) | (pre & cs & post & Hcs & Heq)].
  - destruct (Hinside [] cs post Hcs Heq) as [(k & HP) | (k & Hpre & HS)].
    + left. left. eauto.
    + exfalso. destruct P; [ | done]. destruct k; [ | done].
      apply fits_result_out_chars in Hcs as (c & ->). discriminate.
  - rewrite cons_middle, app_assoc in Heq.
    destruct (Hinside _ cs post Hcs Heq) as [(k & HP) | (k & Hpre & HS)].
    + left. right. exists pre, cs, k. split; [done | ].
      by rewrite HP, <- app_assoc.
    + destruct k as [ | a k _] using rev_ind.
      * exfalso. apply fits_result_out_chars in Hcs as (c & ->). discriminate.
      * rewrite app_assoc in Hpre. apply app_inj_tail in Hpre as [_ <-].
        right. exists k, cs, post. split; [done | ].
        by rewrite HS, <- app_assoc.
Qed.

Lemma hit_is_result (t : string) cs post :
  t ∈ ["x.out"; "y.out"; "result.out"; "seed.out"] →
  Forall2 fits result_out cs → chars t = cs ++ post → t = "result.out".
Proof.
  intros Ht Hcs Heq. apply fits_result_out_chars in Hcs as (c & ->).
  repeat (apply elem_of_cons in Ht as [-> | Ht]; [by simplify_eq/= | ]).
  by apply elem_of_nil in Ht.
Qed.

Lemma destination_chars path seed t :
  chars (Lightweight.destination path seed t)
  = chars (Py.rstrip_slash path)
    ++ "/"%char :: "s"%char
       :: (["e"; "e"; "d"; "_"]%char ++ chars (Py.str_int seed))
          ++ "/"%char :: chars t.
Proof.
  unfold Lightweight.destination. rewrite !chars_app. reflexivity.
Qed.

Lemma selection path seed t :
  t ∈ ["x.out"; "y.out"; "result.out"; "seed.out"] →
  ¬ segment_hit (chars (Py.rstrip_slash path)) →
  segment_hit (chars (Lightweight.destination path seed t)) →
  t = "result.out".
Proof.
  intros Ht HP Hhit. rewrite destination_chars in Hhit.
  apply segment_hit_app in Hhit as [? | (k0 & cs & post & Hcs & Heq)]; [done | ].
  destruct k0 as [ | a k0].
  - exfalso. apply fits_result_out_chars in Hcs as (c & ->). discriminate.
  - injection Heq as <- Heq.
    apply (one_slash_split
             (["s"; "e"; "e"; "d"; "_"]%char ++ chars (Py.str_int seed))
             (chars t)) in Heq as [_ Heq].
    + by eapply hit_is_result.
    + intros Hin.
      apply elem_of_app in Hin as [Hin | Hin].
      * repeat (apply elem_of_cons in Hin as [? | Hin]; [discriminate | ]).
        by apply elem_of_nil in Hin.
      * by apply (str_int_slash_free seed).
    + intros Hin.
      repeat (apply elem_of_cons in Ht as [-> | Ht];
              [simpl in Hin;
               repeat (apply elem_of_cons in Hin as [? | Hin]; [discriminate | ]);
               by apply elem_of_nil in Hin | ]).
      by apply elem_of_nil in Ht.
Qed.

End SelectionFacts.

(** ** Orders of the tasks of a pipeline *)

Module GraphFacts.

Import Kfp.

Lemma producers_Items vs : producers (Items vs) = vs ≫= producers.
Proof.
  induction vs as [ | v vs IH]; [done | ].
  rewrite bind_cons. simpl in *. by rewrite IH.
Qed.

Lemma enumerate_lookup {A} (l : list A) : ∀ k i x,
  (i, x) ∈ zip (seq k (length l)) l ↔ (k ≤ i)%nat ∧ l !! (i - k)%nat = Some x.
Proof.
  induction l as [ | y l IH]; intros k i x; simpl.
  - rewrite elem_of_nil. split; [done | ]. by intros [_ ?].
  - rewrite elem_of_cons, IH. split.
    + intros [[= -> ->] | [Hk Hl]].
      * split; [lia | ]. by rewrite Nat.sub_diag.
      * split; [lia | ]. replace (i - k)%nat with (S (i - S k)) by lia. done.
    + intros [Hk Hl]. destruct (decide (i = k)) as [-> | Hne].
      * left. rewrite Nat.sub_diag in Hl. simpl in Hl. congruence.
      * right. split; [lia | ].
        replace (i - k)%nat with (S (i - S k)) in Hl by lia. done.
Qed.

Lemma respectsb_spec table order :
  respectsb table order = true ↔
  ∀ i t ds d, order !! i = Some t → table !! t = Some ds → d ∈ ds →
              d ∈ take i order.
Proof.
  unfold respectsb. rewrite forallb_forall. split.
  - intros H i t ds d Hi Ht Hd.
    specialize (H (i, t)). simpl in H. rewrite Ht in H.
    assert (Hin : In (i, t) (Py.enumerate order)).
    { apply list_elem_of_In, enumerate_lookup. split; [lia | ].
      by rewrite Nat.sub_0_r. }
    specialize (H Hin). rewrite forallb_forall in H.
    apply list_elem_of_In in Hd. specialize (H d Hd).
    by apply bool_decide_eq_true in H.
  - intros H [i t] Hin.
    apply list_elem_of_In, enumerate_lookup in Hin as [_ Hi].
    rewrite Nat.sub_0_r in Hi.
    destruct (table !! t) as [ds | ] eqn:Ht; [ | done].
    apply forallb_forall. intros d Hd. apply bool_decide_eq_true.
    apply (H i t ds d Hi Ht). by apply list_elem_of_In.
Qed.

(** The orders that respect a pipeline are the schedules of its waits. *)
Lemma respects_schedules p order :
  respects p order ↔ order ∈ schedules (waits p).
Proof.
  unfold respects, schedules.
  rewrite list_elem_of_filter, respectsb_spec, permutations_Permutation.
  unfold waits at 3. rewrite length_fmap. split.
  - intros [Hperm H]. split; [done | by symmetry].
  - intros [H Hperm]. split; [by symmetry | done].
Qed.

End GraphFacts.

Module StorageFacts.

Import Storage.

Lemma starts_with_spec (p s : string) :
  starts_with p s = true ↔ ∃ rest, s = p +:+ rest.
Proof.
  revert s. induction p as [|a p IH]; intros s.
  - split; [intros _; by exists s | done].
  - destruct s as [|b s].
    + split; [done | intros [rest H]; discriminate H].
    + change (Ascii.eqb a b && starts_with p s = true
              ↔ ∃ rest, String b s = String a (p +:+ rest)).
      rewrite andb_true_iff, Ascii.eqb_eq, IH. split.
      * intros [-> [rest ->]]. by exists rest.
      * intros [rest H]. injection H as -> ->. split; [done | by exists rest].
Qed.

Lemma list_objects_Ok (bucket pfx : string) (s : state)
    (objects : gmap string string) :
  buckets s !! bucket = Some objects →
  ∃ listing,
    list_objects bucket pfx s = (Ok listing, s) ∧
    ∀ name size,
      (name, size) ∈ listing ↔
      ∃ content, objects !! name = Some content ∧
                 size = String.length content ∧
                 starts_with pfx name = true.
Proof.
  intros Hb. unfold list_objects. rewrite Hb. eexists. split; [done|].
  intros name size. rewrite list_elem_of_fmap. split.
  - intros [[k v] [[= -> ->] Hin]].
    apply elem_of_map_to_list, map_lookup_filter_Some in Hin as [Hk Hp].
    by exists v.
  - intros (content & Hk & -> & Hp). exists (name, content). split; [done|].
    apply elem_of_map_to_list, map_lookup_filter_Some. by split.
Qed.

(** The cells after the bucket is known to exist. *)
Lemma cells_from_upload (decode : string → outcome string)
    (bucket content : string) (s : state) (objects : gmap string string) :
  disk s !! LOCAL_FILE = Some content →
  buckets s !! bucket = Some objects →
  ∃ listing,
    sbind (fput_object bucket REMOTE_FILE LOCAL_FILE) (λ _,
    sbind (list_objects bucket "examples/") (λ objects,
    sbind (fget_object bucket REMOTE_FILE DL_FILE) (λ _,
    sbind (read decode DL_FILE) (λ text,
    sret (objects, text))))) s
    = (and_then (decode content) (λ text, Ok (listing, text)),
       State (<[bucket := <[REMOTE_FILE := content]> objects]> (buckets s))
             (<[DL_FILE := content]> (disk s))) ∧
    ∀ name size,
      (name, size) ∈ listing ↔
      ∃ text, <[REMOTE_FILE := content]> objects !! name = Some text ∧
              size = String.length text ∧
              starts_with "examples/" name = true.
Proof.
  intros Hf Hb.
  set (s1 := State (<[bucket := <[REMOTE_FILE := content]> objects]> (buckets s))
                   (disk s)).
  assert (H1 : buckets s1 !! bucket = Some (<[REMOTE_FILE := content]> objects))
    by apply lookup_insert_eq.
  destruct (list_objects_Ok bucket "examples/" s1 _ H1) as (listing & Hl & Hin).
  exists listing. split; [ | exact Hin].
  unfold sbind at 1. unfold fput_object. rewrite Hf, Hb. fold s1.
  unfold sbind at 1. rewrite Hl.
  unfold sbind at 1. unfold fget_object. rewrite H1, lookup_insert_eq.
  unfold sbind, read. cbn [disk]. rewrite lookup_insert_eq.
  by destruct (decode content).
Qed.

(** The first cells: afterwards the bucket exists. *)
Lemma ensure_bucket_run (follows_convention : string → bool)
    (bucket : string) (s : state) :
  is_Some (buckets s !! bucket) ∨ follows_convention bucket = true →
  ∃ s1,
    sbind (bucket_exists bucket) (λ present,
      sbind (if negb present
             then make_bucket follows_convention bucket
             else sret ()) (λ _, sret ())) s
    = (Ok (), s1) ∧
    disk s1 = disk s ∧
    buckets s1 !! bucket = Some (default ∅ (buckets s !! bucket)) ∧
    ∀ other, other ≠ bucket → buckets s1 !! other = buckets s !! other.
Proof.
  intros Hb.
  unfold sbind, bucket_exists, make_bucket, sret.
  destruct (buckets s !! bucket) as [objects | ] eqn:E.
  - rewrite bool_decide_eq_true_2 by done. simpl.
    exists s. by rewrite E.
  - rewrite bool_decide_eq_false_2 by (intros [? ?]; done). simpl.
    destruct Hb as [[? ?] | ->]; [done | ]. simpl. rewrite E.
    eexists. split; [done | ]. split; [done | ].
    split; [apply lookup_insert_eq | ].
    intros other Ho. simpl. by rewrite lookup_insert_ne.
Qed.

Lemma cells_split (follows_convention : string → bool)
    (decode : string → outcome string) (bucket : string) (s s1 : state) :
  sbind (bucket_exists bucket) (λ present,
    sbind (if negb present
           then make_bucket follows_convention bucket
           else sret ()) (λ _, sret ())) s
  = (Ok (), s1) →
  cells follows_convention decode bucket s
  = sbind (fput_object bucket REMOTE_FILE LOCAL_FILE) (λ _,
    sbind (list_objects bucket "examples/") (λ objects,
    sbind (fget_object bucket REMOTE_FILE DL_FILE) (λ _,
    sbind (read decode DL_FILE) (λ text,
    sret (objects, text))))) s1.
Proof.
  intros Hrun. unfold cells.
  unfold sbind at 1 2. unfold sbind at 1 2 in Hrun.
  destruct (bucket_exists bucket s) as [[present | e] s0]; [ | done].
  destruct ((if negb present
             then make_bucket follows_convention bucket
             else sret ()) s0) as [[u | e] s2]; [destruct u | done].
  unfold sret in Hrun. by injection Hrun as ->.
Qed.

(** The cells when the bucket can be had and the local file exists: all
    calls of the client return, and the last cell returns what the
    decoder makes of the bytes. *)
Lemma cells_run (follows_convention : string → bool)
    (decode : string → outcome string)
    (bucket content : string) (s : state) :
  disk s !! LOCAL_FILE = Some content →
  is_Some (buckets s !! bucket) ∨ follows_convention bucket = true →
  ∃ listing s1,
    cells follows_convention decode bucket s
    = (and_then (decode content) (λ text, Ok (listing, text)),
       State (<[bucket := <[REMOTE_FILE := content]>
                             (default ∅ (buckets s !! bucket))]> (buckets s1))
             (<[DL_FILE := content]> (disk s))) ∧
    (∀ other, other ≠ bucket → buckets s1 !! other = buckets s !! other) ∧
    ∀ name size,
      (name, size) ∈ listing ↔
      ∃ text, <[REMOTE_FILE := content]>
                (default ∅ (buckets s !! bucket)) !! name = Some text ∧
              size = String.length text ∧
              starts_with "examples/" name = true.
Proof.
  intros Hf Hb.
  destruct (ensure_bucket_run follows_convention bucket s Hb)
    as (s1 & Hrun & Hd & Hb1 & Hother).
  assert (Hf1 : disk s1 !! LOCAL_FILE = Some content) by (by rewrite Hd).
  destruct (cells_from_upload decode bucket content s1 _ Hf1 Hb1)
    as (listing & Hrest & Hin).
  exists listing, s1. split; [ | by split].
  rewrite (cells_split _ _ _ _ _ Hrun), Hrest. by rewrite Hd.
Qed.

End StorageFacts.

(** ** Run locations and keys *)

Import KeyFacts.

(** X2: in the reusable notebook the uploads of one run never share a
    destination: the copies of the samples of the seeds that
    [create_seeds_func] returns go to pairwise different keys, and none of
    them goes to the key of the average. *)
Theorem reusable_destinations_distinct
    (output_location run_id : string) (n_samples : Z) :
  NoDup (Reusable.copy_average_destination output_location run_id
         :: (Reusable.copy_sample_destination output_location run_id
               <$> seeds_of (create_seeds_func n_samples))).
Proof.
  apply NoDup_cons. split.
  - intros Hin. apply list_elem_of_fmap in Hin as (seed & Heq & _).
    symmetry in Heq. by apply reusable_sample_not_average in Heq.
  - apply NoDup_fmap_2; [apply reusable_copy_sample_destination_inj | ].
    apply seeds_NoDup.
Qed.



(** ** The stages of the lightweight pipeline *)

Import StageFacts.





(** X6: the end of the lightweight pipeline, collection followed by
    averaging.  When every listed object holds a float and the list of
    these floats survives being handed on as text, the stage returns their
    arithmetic mean, the sum of the values divided by their count in
    binary64 arithmetic, if there is at least one; if the finder lists
    nothing, the collection returns the empty list and it is the average
    that fails, with [ZeroDivisionError]. *)
Theorem collect_and_average_result
    (find : gmap string string → string → string → outcome (list string))
    (float_of_text : string → option float)
    (serialize : list (option float) → string)
    (json_loads : string → outcome json)
    (output_location run_id : string) (w : world)
    (names : list string) (vs : list float) :
  find (bucket w) Lightweight.search_pattern
    (Lightweight.sample_output_location output_location run_id) = Ok names →
  Forall2 (holds_float float_of_text (bucket w)) names vs →
  json_loads (serialize (Some <$> vs)) = Ok (JList (JFloat <$> vs)) →
  Z.of_nat (length vs) < 2 ^ 63 →
  (names = [] →
   (LightweightRun.collect_and_average find float_of_text serialize json_loads
      output_location run_id w).1 = Raise ZeroDivisionError) ∧
  (names ≠ [] →
   ∃ mean,
     (LightweightRun.collect_and_average find float_of_text serialize json_loads
        output_location run_id w).1 = Ok mean ∧
     Prim2SF mean = arithmetic_mean vs).
Proof.
  intros Hfind Hall Hround Hlen.
  pose proof (collect_and_average_run find float_of_text serialize json_loads
                output_location run_id w names vs Hfind Hall) as Hstage.
  rewrite Hstage. split.
  - intros ->. inversion Hall; subst.
    unfold average_func. rewrite Hround. reflexivity.
  - intros Hne. apply average_func_floats; [exact Hround | | exact Hlen].
    intros ->. inversion Hall; subst. done.
Qed.

Lemma collect_and_average_result_witness :
  find_two (bucket example_world) Lightweight.search_pattern
    (Lightweight.sample_output_location "out" "run")
  = Ok ["out/run/seeds/seed_10/result.out"; "out/run/seeds/seed_11/result.out"] ∧
  Forall2 (holds_float float_of_result_text (bucket example_world))
    ["out/run/seeds/seed_10/result.out"; "out/run/seeds/seed_11/result.out"]
    [4; 0]%float ∧
  json_loads_example (serialize_example (Some <$> [4; 0]%float))
  = Ok (JList (JFloat <$> [4; 0]%float)) ∧
  Z.of_nat (length [4; 0]%float) < 2 ^ 63 ∧
  ∃ mean,
    (LightweightRun.collect_and_average find_two float_of_result_text
       serialize_example json_loads_example "out" "run" example_world).1
    = Ok mean ∧
    Prim2SF mean = arithmetic_mean [4; 0]%float.
Proof.
  split; [reflexivity | ].
  assert (Hall : Forall2 (holds_float float_of_result_text (bucket example_world))
            ["out/run/seeds/seed_10/result.out"; "out/run/seeds/seed_11/result.out"]
            [4; 0]%float).
  { constructor; [exists "4"; split; reflexivity | ].
    constructor; [exists "0"; split; reflexivity | constructor]. }
  split; [exact Hall | ]. split; [reflexivity | ]. split; [reflexivity | ].
  refine (proj2 (collect_and_average_result find_two float_of_result_text
                   serialize_example json_loads_example "out" "run"
                   example_world _ [4; 0]%float eq_refl Hall eq_refl eq_refl) _).
  discriminate.
Defined.



(** ** The search pattern on the files of a sample *)

Import SelectionFacts.

(** X7: of the four files that the lightweight [sample_func] puts for a
    seed, the search pattern of the lightweight pipeline matches the key of
    [result.out] and of no other, provided it does not already match the
    sample output location itself. *)
Theorem lightweight_pattern_selects_results
    (output_location run_id : string) (seed : Z) (varname : string) :
  varname ∈ varnames →
  key_matches Lightweight.search_pattern
    (Lightweight.sample_output_location output_location run_id) = false →
  key_matches Lightweight.search_pattern
    (Lightweight.destination
       (Lightweight.sample_output_location output_location run_id) seed
       (varname +:+ ".out")) = true
  ↔ varname = "result".
Proof.
  intros Hvar Hloc. split.
  - intros Hm. apply key_matches_segment_hit in Hm.
    apply selection in Hm.
    + unfold varnames in Hvar.
      repeat (apply elem_of_cons in Hvar as [-> | Hvar]; [by simplify_eq/= | ]).
      by apply elem_of_nil in Hvar.
    + unfold varnames in Hvar.
      repeat (apply elem_of_cons in Hvar as [-> | Hvar];
              [repeat constructor | ]).
      by apply elem_of_nil in Hvar.
    + unfold Lightweight.sample_output_location in *.
      rewrite rstrip_slash_seeds. intros Hhit.
      apply key_matches_segment_hit in Hhit. congruence.
  - intros ->. apply key_matches_lightweight.
    exists "result.out". split; [by exists "."%char | ].
    right.
    exists (Py.rstrip_slash
              (Lightweight.sample_output_location output_location run_id)
            +:+ "/seed_" +:+ Py.str_int seed), "".
    unfold Lightweight.destination. by rewrite !append_assoc.
Qed.

Lemma lightweight_pattern_selects_results_witness :
  "x" ∈ varnames ∧
  key_matches Lightweight.search_pattern
    (Lightweight.sample_output_location "out" "run") = false ∧
  (key_matches Lightweight.search_pattern
     (Lightweight.destination (Lightweight.sample_output_location "out" "run")
        10 ("x" +:+ ".out")) = true
   ↔ "x" = "result").
Proof.
  assert (Hvar : "x" ∈ varnames) by apply list_elem_of_here.
  assert (Hloc : key_matches Lightweight.search_pattern
                   (Lightweight.sample_output_location "out" "run") = false)
    by (vm_compute; reflexivity).
  split; [exact Hvar | ]. split; [exact Hloc | ].
  exact (lightweight_pattern_selects_results "out" "run" 10 "x" Hvar Hloc).
Defined.

(** ** The pipelines of the other notebooks *)

Import GraphFacts.

(** X8: [average_op] raises [ValueError] when it is called without numbers
    and creates no task then: the pipeline is as before the call.  Called
    with numbers it creates one [ContainerOp] that carries them, in order,
    as its arguments, and that waits for exactly the tasks whose outputs
    are among them; the tasks created before stay as they were. *)
Theorem average_op_validates (numbers : list Kfp.value) (p : list Kfp.op) :
  (numbers = [] → Docker.average_op numbers p = (Raise ValueError, p)) ∧
  (numbers ≠ [] →
   ∃ o, Docker.average_op numbers p = (Ok (length p), p ++ [o]) ∧
        Kfp.kind o = "ContainerOp" ∧
        ("arguments", Kfp.Items numbers) ∈ Kfp.spec o ∧
        Kfp.deps o = numbers ≫= Kfp.producers).
Proof.
  unfold Docker.average_op. split.
  - by intros ->.
  - intros Hne. destruct numbers as [ | v numbers]; [done | ].
    eexists. split; [reflexivity | ]. split; [done | ].
    split; [repeat constructor | ].
    unfold Kfp.deps. cbn -[Kfp.producers].
    rewrite producers_Items. simpl. by rewrite !app_nil_r.
Qed.

(** X9: called with five values that are not outputs of tasks,
    [my_pipeline] raises nothing and creates three tasks; the overall
    average waits for both group averages, so it runs last in every order
    the pipeline allows, while the two group averages may run in either
    order. *)
Theorem my_pipeline_orders (a b c d e : Kfp.value) :
  Kfp.producers a = [] → Kfp.producers b = [] → Kfp.producers c = [] →
  Kfp.producers d = [] → Kfp.producers e = [] →
  ∃ p, Docker.my_pipeline a b c d e [] = (Ok (), p) ∧
       Kfp.waits p = [[]; []; [0; 1]%nat] ∧
       ∀ order, Kfp.respects p order ↔
                order = [0; 1; 2]%nat ∨ order = [1; 0; 2]%nat.
Proof.
  intros Ha Hb Hc Hd He. eexists. split; [reflexivity | ].
  match goal with |- Kfp.waits ?p = _ ∧ _ =>
    assert (Hwaits : Kfp.waits p = [[]; []; [0; 1]%nat]) end.
  { unfold Kfp.waits, Kfp.deps. simpl. by rewrite Ha, Hb, Hc, Hd, He. }
  split; [exact Hwaits | ].
  intros order. rewrite respects_schedules, Hwaits.
  change (order ∈ [[0; 1; 2]; [1; 0; 2]]%nat ↔
          order = [0; 1; 2]%nat ∨ order = [1; 0; 2]%nat).
  rewrite !elem_of_cons, elem_of_nil. tauto.
Qed.

Lemma my_pipeline_orders_witness :
  Kfp.producers (Kfp.Param "a") = [] ∧
  ∃ p, Docker.my_pipeline (Kfp.Param "a") (Kfp.Param "b") (Kfp.Param "c")
         (Kfp.Param "d") (Kfp.Param "e") [] = (Ok (), p) ∧
       Kfp.waits p = [[]; []; [0; 1]%nat] ∧
       ∀ order, Kfp.respects p order ↔
                order = [0; 1; 2]%nat ∨ order = [1; 0; 2]%nat.
Proof.
  split; [reflexivity | ].
  exact (my_pipeline_orders (Kfp.Param "a") (Kfp.Param "b") (Kfp.Param "c")
           (Kfp.Param "d") (Kfp.Param "e")
           eq_refl eq_refl eq_refl eq_refl eq_refl).
Defined.

(** X10: called with three values that are not outputs of tasks,
    [pipeline_calc] creates four tasks that can run in one order only: the
    cluster is created, the run is submitted, the run is deleted, the
    cluster is deleted. *)
Theorem pipeline_calc_order (cluster_name run_name parameter : Kfp.value) :
  Kfp.producers cluster_name = [] → Kfp.producers run_name = [] →
  Kfp.producers parameter = [] →
  ∃ p, Databricks.pipeline_calc cluster_name run_name parameter []
       = (Ok (), p) ∧
       Kfp.kind <$> p
       = ["CreateClusterOp"; "SubmitRunOp"; "DeleteRunOp"; "DeleteClusterOp"] ∧
       ∀ order, Kfp.respects p order ↔ order = [0; 1; 2; 3]%nat.
Proof.
  intros Hc Hr Hp. eexists. split; [reflexivity | ].
  split; [reflexivity | ].
  match goal with |- ∀ order, Kfp.respects ?p order ↔ _ =>
    assert (Hwaits : Kfp.waits p = [[]; [0]; [1]; [2]]%nat) end.
  { unfold Kfp.waits, Kfp.deps. simpl. by rewrite Hc, Hr, Hp. }
  intros order. rewrite respects_schedules, Hwaits.
  change (order ∈ [[0; 1; 2; 3]%nat] ↔ order = [0; 1; 2; 3]%nat).
  apply list_elem_of_singleton.
Qed.

Lemma pipeline_calc_order_witness :
  Kfp.producers (Kfp.Param "cluster_name") = [] ∧
  ∃ p, Databricks.pipeline_calc (Kfp.Param "cluster_name")
         (Kfp.Param "run_name") (Kfp.Param "parameter") []
       = (Ok (), p) ∧
       Kfp.kind <$> p
       = ["CreateClusterOp"; "SubmitRunOp"; "DeleteRunOp"; "DeleteClusterOp"] ∧
       ∀ order, Kfp.respects p order ↔ order = [0; 1; 2; 3]%nat.
Proof.
  split; [reflexivity | ].
  exact (pipeline_calc_order (Kfp.Param "cluster_name") (Kfp.Param "run_name")
           (Kfp.Param "parameter") eq_refl eq_refl eq_refl).
Defined.

(** ** The notebook on bucket storage *)

Import StorageFacts.





(** ** The failures of averaging *)

(** X14: on a text that decodes, [average_func] raises [ZeroDivisionError]
    exactly when the decoded value has nothing to sum, an empty list, an
    empty dictionary or an empty text; whatever else it raises is a
    [TypeError], from a value that cannot be summed, or an [OverflowError],
    from an [int] or a quotient too large for a float. *)
Theorem average_func_failures (json_loads : string → outcome json)
    (text : string) (v : json) :
  json_loads text = Ok v →
  (average_func json_loads text = Raise ZeroDivisionError
   ↔ v = JList [] ∨ v = JDict [] ∨ v = JStr "") ∧
  (∀ e, average_func json_loads text = Raise e →
        e = ZeroDivisionError ∨ e = TypeError ∨ e = OverflowError).
Proof.
  intros Hload.
  destruct (average_func_Raise json_loads text v Hload) as [Hzero Hothers].
  split; [ | exact Hothers].
  rewrite Hzero. split.
  - destruct v as [ | b | i | f | s | items | items]; simpl; try done.
    + destruct s as [ | c s]; [auto | done].
    + intros [= ->]. auto.
    + destruct items as [ | item items]; [auto | done].
  - intros [-> | [-> | ->]]; reflexivity.
Qed.

Lemma average_func_failures_witness :
  json_loads_example "[4, null]" = Ok (JList [JInt 4; JNull]) ∧
  average_func json_loads_example "[4, null]" = Raise TypeError ∧
  average_func json_loads_example "[4, null]" ≠ Raise ZeroDivisionError.
Proof.
  split; [reflexivity | ]. split; [reflexivity | ].
  intros H.
  destruct (proj1 (proj1 (average_func_failures json_loads_example "[4, null]"
                            (JList [JInt 4; JNull]) eq_refl)) H)
    as [H' | [H' | H']]; discriminate H'.
Defined.
